(** * Luma attendee scraper: a shallow embedding of [main.py]

    The development follows the source file top to bottom:
    - [PyStr]: the Python string operations the script uses
      ([in], [str.split], [str.capitalize], f-string joins);
    - [Exc]: Python exceptions and the [except Exception] test;
    - [Run]: the state-and-exception monad in which the script runs
      (standard output, the two files it writes), and [handle_exceptions];
    - [Detector]: the loading loop of lines 142-171, on its own;
    - [Scraper]: [scrape_luma_event] itself, against a [World] that
      answers the page driver's queries;
    - [Sample], [MoreSamples]: sample event pages;
    - [Props]: notions used to state properties of whole runs;
    - the [...Facts] modules: lemmas about each of the above;
    - the closing sections: the properties of the detector, the export
      pipeline, the record extractor, the profile resolver, the
      top-level guard, and of runs as a whole.

    A Python [str] is modelled by the [string] of its UTF-8 bytes:
    membership, concatenation and splitting are the same on both, and
    whitespace is recognised by its encodings. *)

From Stdlib Require Import ZArith Ascii String List Lia Bool.
From Stdlib Require Import DecimalString.
From stdpp Require Import base option list strings gmap fin_maps.

Local Open Scope Z_scope.
Local Open Scope string_scope.

(* ===================================================================== *)
(** ** Python strings *)
(* ===================================================================== *)

Module PyStr.

(** [c in s] for a one-character needle. *)
Fixpoint contains_char (c : ascii) (s : string) : bool :=
  match s with
  | EmptyString => false
  | String d s' => if Ascii.eqb c d then true else contains_char c s'
  end.

(** Whitespace, as [str.split] and [str.isspace] see it, is the code
    points U+0009-000D, U+001C-0020, U+0085, U+00A0, U+1680,
    U+2000-200A, U+2028, U+2029, U+202F, U+205F and U+3000. In UTF-8
    the first group is one byte each, U+0085 and U+00A0 are two bytes,
    the others three. *)

(** TAB, LF, VT, FF, CR, FS, GS, RS, US, SPACE. *)
Definition isspace_byte (a : ascii) : bool :=
  let n := nat_of_ascii a in
  ((9 <=? n)%nat && (n <=? 13)%nat) || ((28 <=? n)%nat && (n <=? 32)%nat).

(** U+0085 (C2 85) and U+00A0 (C2 A0). *)
Definition isspace_2 (a b : ascii) : bool :=
  (nat_of_ascii a =? 194)%nat &&
  ((nat_of_ascii b =? 133)%nat || (nat_of_ascii b =? 160)%nat).

(** U+1680 (E1 9A 80); U+2000-200A (E2 80 80-8A), U+2028, U+2029,
    U+202F (E2 80 A8, A9, AF), U+205F (E2 81 9F); U+3000 (E3 80 80). *)
Definition isspace_3 (a b c : ascii) : bool :=
  let x := nat_of_ascii a in
  let y := nat_of_ascii b in
  let z := nat_of_ascii c in
  ((x =? 225)%nat && (y =? 154)%nat && (z =? 128)%nat) ||
  ((x =? 226)%nat && (y =? 128)%nat &&
   (((128 <=? z)%nat && (z <=? 138)%nat) || (z =? 168)%nat || (z =? 169)%nat || (z =? 175)%nat)) ||
  ((x =? 226)%nat && (y =? 129)%nat && (z =? 159)%nat) ||
  ((x =? 227)%nat && (y =? 128)%nat && (z =? 128)%nat).

(** The number of bytes of the whitespace character [s] starts with;
    0 when it starts with none. *)
Definition space_width (s : string) : nat :=
  match s with
  | String a (String b (String c _)) =>
      if isspace_byte a then 1%nat else if isspace_2 a b then 2%nat
      else if isspace_3 a b c then 3%nat else 0%nat
  | String a (String b EmptyString) =>
      if isspace_byte a then 1%nat else if isspace_2 a b then 2%nat else 0%nat
  | String a EmptyString => if isspace_byte a then 1%nat else 0%nat
  | EmptyString => 0%nat
  end.

(** [s] without its first [n] bytes. *)
Fixpoint drop_bytes (n : nat) (s : string) : string :=
  match n, s with
  | S k, String _ s' => drop_bytes k s'
  | _, _ => s
  end.

(** Drop leading whitespace. *)
Fixpoint lstrip (s : string) : string :=
  match s with
  | EmptyString => EmptyString
  | String _ s1 =>
      match space_width s with
      | O => s
      | S O => lstrip s1
      | S (S O) => match s1 with
             | String _ s2 => lstrip s2
             | EmptyString => EmptyString
             end
      | _ => match s1 with
             | String _ (String _ s3) => lstrip s3
             | _ => EmptyString
             end
      end
  end.

(** Cut [s] where its first whitespace character starts: the token
    before it and the text from that character on. *)
Fixpoint take_token (s : string) : string * string :=
  match s with
  | EmptyString => (EmptyString, EmptyString)
  | String c s' =>
      match space_width s with
      | O => let '(tok, rest) := take_token s' in (String c tok, rest)
      | S _ => (EmptyString, s)
      end
  end.

(** [s.split(maxsplit=1)] with no separator: skip leading whitespace; if
    nothing is left the result is empty; otherwise one token, then (when
    something other than whitespace follows it) the remainder, which
    keeps its trailing whitespace. *)
Definition split_maxsplit1 (s : string) : list string :=
  match lstrip s with
  | EmptyString => []
  | s1 =>
      let '(tok, rest) := take_token s1 in
      match lstrip rest with
      | EmptyString => [tok]
      | r => [tok; r]
      end
  end.

(** [s] is empty or whitespace only. *)
Definition blank (s : string) : bool :=
  match lstrip s with
  | EmptyString => true
  | String _ _ => false
  end.


Definition upper_char (c : ascii) : ascii :=
  let n := nat_of_ascii c in
  if ((97 <=? n)%nat && (n <=? 122)%nat) then ascii_of_nat (n - 32) else c.

Definition lower_char (c : ascii) : ascii :=
  let n := nat_of_ascii c in
  if ((65 <=? n)%nat && (n <=? 90)%nat) then ascii_of_nat (n + 32) else c.

Fixpoint lower_ascii (s : string) : string :=
  match s with
  | EmptyString => EmptyString
  | String c s' => String (lower_char c) (lower_ascii s')
  end.

(** [s.capitalize()] for ASCII text: first character upper-cased, the
    rest lower-cased. *)
Definition capitalize_ascii (s : string) : string :=
  match s with
  | EmptyString => EmptyString
  | String c s' => String (upper_char c) (lower_ascii s')
  end.

(** Every byte of [s] is below 128: [s] is ASCII text. *)
Fixpoint is_ascii (s : string) : bool :=
  match s with
  | EmptyString => true
  | String c s' => (nat_of_ascii c <? 128)%nat && is_ascii s'
  end.

(** [str.capitalize] follows the Unicode case tables of the interpreter,
    which are not part of the script: the script is read against any
    [capitalize] that does on ASCII text what [capitalize_ascii] does,
    and maps no non-empty text to the empty one. *)
Record CaseMapping : Type := mk_case {
  capitalize : string -> string;
  capitalize_on_ascii : forall s, is_ascii s = true -> capitalize s = capitalize_ascii s;
  capitalize_nonempty : forall s, s <> EmptyString -> capitalize s <> EmptyString
}.

Lemma capitalize_ascii_nonempty s : s <> EmptyString -> capitalize_ascii s <> EmptyString.
Proof. destruct s; [congruence | discriminate]. Qed.

(** The case mapping that changes ASCII letters only; the sample pages
    are read with it. *)
Definition ascii_case : CaseMapping :=
  mk_case capitalize_ascii (fun s _ => eq_refl) capitalize_ascii_nonempty.

(** Is [p] a prefix of [s]? *)
Fixpoint startswith (p s : string) : bool :=
  match p, s with
  | EmptyString, _ => true
  | String a p', String b s' => Ascii.eqb a b && startswith p' s'
  | String _ _, EmptyString => false
  end.

(** [s.split(sep)] for a non-empty [sep]: [skip] counts the characters of
    a separator still to be passed over, [cur] is the piece being built. *)
Fixpoint split_on_aux (sep s : string) (skip : nat) (cur : string) : list string :=
  match s with
  | EmptyString => [cur]
  | String c s' =>
      match skip with
      | S k => split_on_aux sep s' k cur
      | O =>
          if startswith sep s
          then cur :: split_on_aux sep s' (String.length sep - 1) EmptyString
          else split_on_aux sep s' O (cur ++ String c EmptyString)
      end
  end.

Definition split_on (sep s : string) : list string := split_on_aux sep s O EmptyString.

(** [str(n)] for a Python [int]. *)
Definition str_of_int (n : Z) : string := NilZero.string_of_int (Z.to_int n).

(** Every character of [s] satisfies [p]. *)
Fixpoint all_chars (p : ascii -> bool) (s : string) : bool :=
  match s with
  | EmptyString => true
  | String c s' => p c && all_chars p s'
  end.

(** Python truthiness of an [Optional[str]]: [None] and [""] are false. *)
Definition truthy (o : option string) : bool :=
  match o with
  | None => false
  | Some EmptyString => false
  | Some _ => true
  end.

End PyStr.

(* ===================================================================== *)
(** ** Exceptions *)
(* ===================================================================== *)

Module Exc.

(** The exception classes that can reach the script: those it raises
    itself ([IndexError]), those of the page driver and the file system,
    and the two that Python raises outside the [Exception] hierarchy. *)
Inductive exc_class : Set :=
  | IndexError
  | KeyError
  | ValueError
  | OSError
  | EOFError
  | PlaywrightError
  | PlaywrightTimeoutError
  | KeyboardInterrupt
  | SystemExit.

(** [isinstance(e, Exception)]: [KeyboardInterrupt] and [SystemExit]
    derive from [BaseException] only. *)
Definition is_Exception (c : exc_class) : bool :=
  match c with
  | KeyboardInterrupt | SystemExit => false
  | _ => true
  end.

Record exn : Set := mk_exn { exn_class : exc_class; exn_str : string }.

(** What [name_parts[0]] raises on an empty list. *)
Definition index_out_of_range : exn := mk_exn IndexError "list index out of range".

End Exc.

(* ===================================================================== *)
(** ** The monad the script runs in *)
(* ===================================================================== *)

Module Run.
Import Exc.

(** What a run leaves behind: the text written to standard output, the
    session file ([luma-auth.json]) if this run stored one, and the CSV
    file ([luma_participants.csv]) if this run opened it for writing,
    as its rows in the order written. *)
Record Sys : Type := mk_sys {
  stdout : string;
  session_file : bool;
  csv_file : option (list (list string))
}.

Definition fresh : Sys := mk_sys "" false None.

(** How a piece of the script ends: with a value, by raising, or still
    running when the loading loop has used up the rounds it was given. *)
Inductive outcome (A : Type) : Type :=
  | Val (a : A)
  | Exn (e : exn)
  | Running.
Arguments Val {A} a.
Arguments Exn {A} e.
Arguments Running {A}.

Definition M (A : Type) : Type := Sys -> outcome A * Sys.

#[global] Instance M_ret : MRet M := fun A a s => (Val a, s).

#[global] Instance M_bind : MBind M := fun A B f m s =>
  match m s with
  | (Val a, s') => f a s'
  | (Exn e, s') => (Exn e, s')
  | (Running, s') => (Running, s')
  end.

Definition raise {A} (e : exn) : M A := fun s => (Exn e, s).

Definition running {A} : M A := fun s => (Running, s).

(** A page-driver (or operating-system) call whose result the world
    supplies: it returns or raises, and leaves [Sys] alone. *)
Definition ask {A} (r : outcome A) : M A := fun s => (r, s).

Definition newline : string := String (ascii_of_nat 10) EmptyString.

(** [print(text)]. *)
Definition print (text : string) : M unit := fun s =>
  (Val tt, mk_sys (stdout s ++ text ++ newline) (session_file s) (csv_file s)).

(** The prompt of [input(prompt)]: written without a newline. *)
Definition prompt (text : string) : M unit := fun s =>
  (Val tt, mk_sys (stdout s ++ text) (session_file s) (csv_file s)).

Definition store_session : M unit := fun s =>
  (Val tt, mk_sys (stdout s) true (csv_file s)).

(** [open(csv_path, "w")]: the file exists and is empty from here on. *)
Definition create_csv : M unit := fun s =>
  (Val tt, mk_sys (stdout s) (session_file s) (Some [])).

(** One row appended by the [csv] writer. *)
Definition append_row (row : list string) : M unit := fun s =>
  (Val tt, mk_sys (stdout s) (session_file s)
             (Some (default [] (csv_file s) ++ [row])%list)).

(** [handle_exceptions(func)], lines 26-35: the wrapper returns what
    [func] returns; an exception that is an instance of [Exception] is
    printed and replaced by [None]; any other exception is not matched by
    the [except] clause and leaves the wrapper.
    [Some v] is the value [v] that [func] returned. *)
Definition handle_exceptions {Args T : Type} (func : Args -> M T) : Args -> M (option T) :=
  fun func_args s =>
    match func func_args s with
    | (Val v, s') => (Val (Some v), s')
    | (Exn e, s') =>
        if is_Exception (exn_class e)
        then (print ("An error occurred: " ++ exn_str e);; mret None) s'
        else (Exn e, s')
    | (Running, s') => (Running, s')
    end.

(** [m] leaves the CSV file as it found it, however it ends. *)
Definition keeps_csv {A} (m : M A) : Prop :=
  forall s, csv_file (m s).2 = csv_file s.

(** [m], when it returns, returns a value satisfying [Q]. *)
Definition returns {A} (m : M A) (Q : A -> Prop) : Prop :=
  forall s a s', m s = (Val a, s') -> Q a.

End Run.

(* ===================================================================== *)
(** ** The loading loop (Stabilization Detector), lines 142-171 *)
(* ===================================================================== *)

Module Detector.
Local Open Scope Z_scope.

(** The loop's variables. *)
Record StabilizationState : Set := mk_state {
  current_participant_count : Z;
  last_participant_count : Z;
  attempts : Z
}.

Definition max_attempts : Z := 3.

(** Lines 142-145. *)
Definition initial : StabilizationState := mk_state 0 0 0.

(** The loop condition of line 147. *)
Definition continues (s : StabilizationState) : bool := attempts s <? max_attempts.

(** One round, given the count read at line 152: lines 164-169. *)
Definition loop_round (count : Z) (s : StabilizationState) : StabilizationState :=
  mk_state count count
    (if count =? last_participant_count s then attempts s + 1 else 0).

(** How the loop stands after a finite sequence of reads. *)
Inductive verdict : Set :=
  | Stable (rounds : nat) (total : Z)
  | Polling (rounds : nat) (s : StabilizationState).

(** The [while] loop fed the reads of a mock signal, one per round.
    [Stable n c]: the condition failed after [n] rounds and line 171
    reports [c]. [Polling n s]: after [n] rounds the signal is used up
    and the loop is asking for one more read. *)
Fixpoint detect (reads : list Z) (rounds : nat) (s : StabilizationState) : verdict :=
  if continues s then
    match reads with
    | [] => Polling rounds s
    | count :: rest => detect rest (S rounds) (loop_round count s)
    end
  else Stable rounds (current_participant_count s).

(** The first [n] reads of a live signal. *)
Definition reads_of (signal : nat -> Z) (n : nat) : list Z := map signal (seq 0 n).

(** The loop against a live signal, watched for [n] rounds. *)
Definition watch (signal : nat -> Z) (n : nat) : verdict :=
  detect (reads_of signal n) 0 initial.

(** The loop terminates on [signal]: some finite watch sees it stop. *)
Definition terminates (signal : nat -> Z) : Prop :=
  exists n rounds total, watch signal n = Stable rounds total.

(** The loop never terminates: however long one watches, it is polling. *)
Definition diverges (signal : nat -> Z) : Prop :=
  forall n, exists s, watch signal n = Polling n s.

(** What round [k] compares its read with: the read of round [k-1], or
    the initial [last_participant_count] in the first round. *)
Definition previous (signal : nat -> Z) (k : nat) : Z :=
  match k with
  | O => last_participant_count initial
  | S j => signal j
  end.

(** Round [k] found the count unchanged. *)
Definition unchanged (signal : nat -> Z) (k : nat) : bool :=
  signal k =? previous signal k.

(** The state after the rounds whose reads are [reads], the loop
    condition set aside. *)
Definition after (reads : list Z) (s : StabilizationState) : StabilizationState :=
  fold_left (fun s count => loop_round count s) reads s.

(** The number of consecutive unchanged rounds ending with round [n-1]. *)
Fixpoint streak (signal : nat -> Z) (n : nat) : nat :=
  match n with
  | O => O
  | S k => if unchanged signal k then S (streak signal k) else O
  end.

End Detector.

(* ===================================================================== *)
(** ** [scrape_luma_event] *)
(* ===================================================================== *)

Module Scraper.
Import PyStr Exc Run Detector.

(** A rendered guest entry, as the page driver answers for it:
    [inner_text()] of its name element (line 181) and
    [get_attribute("href")] (line 193). *)
Record Entry : Type := mk_entry {
  name_text : outcome string;
  href : outcome (option string)
}.

(** A guest's profile page: the navigation of lines 210-211, then
    [linkedin_link.count()] (line 215) and [get_attribute("href")] of
    that link (line 221). *)
Record ProfilePage : Type := mk_profile {
  visit : outcome unit;
  link_count : outcome Z;
  link_href : outcome (option string)
}.

(** Everything outside the script that a run depends on. Each field is
    the result of the page-driver or operating-system calls on the
    source lines named; a field of type [outcome _] may raise. Calls
    that follow one another with nothing observable in between are one
    field. The last field is the case mapping of the interpreter that
    runs the script. *)
Record World : Type := mk_world {
  home : string;                           (* Path.home(), l.46 *)
  session_exists : bool;                   (* os.path.exists, l.48 *)
  launch : outcome unit;                   (* l.51-54 *)
  open_login : string -> outcome unit;     (* l.61-62 *)
  submit_email : outcome unit;             (* l.67-71 *)
  read_code : outcome string;              (* input(), l.73 *)
  enter_code : string -> outcome unit;     (* l.76-81 *)
  save_session : outcome unit;             (* l.85 *)
  pause_after_login : outcome unit;        (* l.88 *)
  open_event : string -> outcome unit;     (* l.90-93 *)
  title_text : outcome string;             (* l.97 *)
  date_text : outcome string;              (* l.98 *)
  time_text : outcome string;              (* l.99 *)
  irl_count : outcome Z;                   (* l.105-106 *)
  irl_title : outcome string;              (* l.109 *)
  irl_desc : outcome string;               (* l.110 *)
  virtual_title : outcome string;          (* l.114-115 *)
  host_text : outcome string;              (* l.119-120 *)
  open_guests : outcome unit;              (* l.125-129 *)
  wait_modal : outcome unit;               (* l.133-134 *)
  modal_html : outcome string;             (* l.136-140 *)
  count_at : nat -> outcome Z;             (* l.149-152, by round *)
  scroll_at : nat -> outcome unit;         (* l.156-160, by round *)
  entries : outcome (list Entry);          (* l.175-177 *)
  profile_at : nat -> string -> ProfilePage; (* l.210-221, by position and URL *)
  open_csv : outcome unit;                 (* l.239 *)
  close_browser : outcome unit;            (* l.274 and leaving the with block *)
  unicode : CaseMapping                    (* str.capitalize, l.190-191 *)
}.

(** The page driver answers the count query of round [k] with
    [signal k] and never fails to scroll. *)
Definition follows (w : World) (signal : nat -> Z) : Prop :=
  (forall k, count_at w k = Val (signal k)) /\ (forall k, scroll_at w k = Val tt).

(** [l[i]]. *)
Definition getitem_list {A} (l : list A) (i : nat) : M A :=
  match l !! i with
  | Some x => mret x
  | None => raise index_out_of_range
  end.

(** [d[k]]. *)
Definition getitem (d : gmap string string) (k : string) : M string :=
  match d !! k with
  | Some v => mret v
  | None => raise (mk_exn KeyError ("'" ++ k ++ "'"))
  end.

(** The event details read at lines 97-121. *)
Record EventMetadata : Type := mk_meta {
  event_title : string;
  event_date : string;
  event_time : string;
  event_place : string;
  event_host : string
}.

(** Lines 57-85. *)
Definition login (w : World) (url : string) : M unit :=
  print "No session found, logging in";;
  next ← getitem_list (split_on "lu.ma/" url) 1;
  let login_url := "https://lu.ma/signin?next=" ++ next in
  ask (open_login w login_url);;
  print (newline ++ "Login page loaded");;
  ask (submit_email w);;
  print (newline ++ "Check your email for the verification code");;
  prompt "Enter the 6-digit verification code: ";;
  verification_code ← ask (read_code w);
  ask (enter_code w verification_code);;
  print "Login successful";;
  ask (save_session w);;
  store_session.

(** Lines 96-121. *)
Definition read_metadata (w : World) : M EventMetadata :=
  title ← ask (title_text w);
  date ← ask (date_text w);
  time ← ask (time_text w);
  print ("Event Title: " ++ title);;
  print ("Event Date: " ++ date);;
  print ("Event Time: " ++ time);;
  n ← ask (irl_count w);
  place ← (if (0 <? n)%Z
           then (t ← ask (irl_title w); d ← ask (irl_desc w); mret (t ++ ", " ++ d))
           else ask (virtual_title w));
  print ("Event Place: " ++ place);;
  host ← ask (host_text w);
  print ("Event Host: " ++ host);;
  mret (mk_meta title date time place host).

(** Lines 123-141. *)
Definition open_guest_list (w : World) : M unit :=
  ask (open_guests w);;
  print "Guests button clicked";;
  ask (wait_modal w);;
  print "Modal body was found";;
  html ← ask (modal_html w);
  print ("Modal content HTML: " ++ html).

(** The [while] loop of lines 147-169, run for at most [fuel] rounds
    from round number [round]. *)
Fixpoint load_participants (fuel : nat) (w : World) (round : nat)
    (s : StabilizationState) : M StabilizationState :=
  if continues s then
    match fuel with
    | O => running
    | S fuel' =>
        count ← ask (count_at w round);
        print ("Current participant count: " ++ str_of_int count);;
        ask (scroll_at w round);;
        print ("Last participant count: " ++ str_of_int (last_participant_count s));;
        load_participants fuel' w (S round) (loop_round count s)
    end
  else mret s.

(** The dict of lines 200-204. *)
Definition candidate (first_name last_name full_profile_url : string) : gmap string string :=
  <["first_name" := first_name]>
    (<["last_name" := last_name]>
      (<["profile_url" := full_profile_url]> ∅)).

(** The body of the loop of lines 180-205 for one element: the
    candidates collected so far, with this element's candidate appended
    or not. *)
Definition extract_entry (w : World) (element : Entry)
    (participants : list (gmap string string)) : M (list (gmap string string)) :=
  full_name ← ask (name_text element);
  if contains_char "@" full_name then
    print ("Skipping email-like name: " ++ full_name);;
    mret participants
  else
    let name_parts := split_maxsplit1 full_name in
    first_part ← getitem_list name_parts 0;
    let first_name := capitalize (unicode w) first_part in
    last_name ← (if (1 <? length name_parts)%nat
                 then (second_part ← getitem_list name_parts 1;
                       mret (capitalize (unicode w) second_part))
                 else mret "");
    profile_url ← ask (href element);
    if negb (truthy profile_url) then
      print ("No profile URL found for " ++ full_name ++ ", skipping");;
      mret participants
    else
      let full_profile_url := "https://lu.ma" ++ default "" profile_url in
      mret (participants ++ [candidate first_name last_name full_profile_url])%list.

(** Lines 180-205. *)
Fixpoint extract_all (w : World) (elements : list Entry)
    (participants : list (gmap string string)) : M (list (gmap string string)) :=
  match elements with
  | [] => mret participants
  | element :: rest =>
      participants' ← extract_entry w element participants;
      extract_all w rest participants'
  end.

(** The body of the loop of lines 208-229 for the participant at
    position [i]: the participant's dict afterwards. *)
Definition resolve (w : World) (i : nat) (participant : gmap string string)
    : M (gmap string string) :=
  first_name ← getitem participant "first_name";
  last_name ← getitem participant "last_name";
  print ("Processing: " ++ first_name ++ " " ++ last_name);;
  profile_url ← getitem participant "profile_url";
  let page := profile_at w i profile_url in
  ask (visit page);;
  n ← ask (link_count page);
  if (n =? 0)%Z then
    print ("No LinkedIn link found for " ++ first_name ++ " " ++ last_name ++ ", skipping");;
    mret participant
  else
    linkedin_url ← ask (link_href page);
    if negb (truthy linkedin_url) then
      print ("No LinkedIn URL found for " ++ first_name ++ " " ++ last_name ++ ", skipping");;
      mret participant
    else
      print ("LinkedIn: " ++ default "" linkedin_url);;
      mret (<["linkedin" := default "" linkedin_url]> participant).

(** Lines 208-229. *)
Fixpoint resolve_all (w : World) (i : nat) (participants : list (gmap string string))
    : M (list (gmap string string)) :=
  match participants with
  | [] => mret []
  | participant :: rest =>
      participant' ← resolve w i participant;
      rest' ← resolve_all w (S i) rest;
      mret (participant' :: rest')
  end.

(** ["linkedin" in p]. *)
Definition has_linkedin (p : gmap string string) : bool :=
  match p !! "linkedin" with
  | Some _ => true
  | None => false
  end.

(** Line 233. *)
Definition keep_resolved (participants : list (gmap string string)) : list (gmap string string) :=
  List.filter has_linkedin participants.

(** Lines 242-252. *)
Definition fieldnames : list string :=
  ["first_name"; "last_name"; "linkedin";
   "custom_att_1"; "custom_att_2"; "custom_att_3";
   "custom_att_4"; "custom_att_5"; "custom_att_6"].

(** The dict of lines 258-268. *)
Definition participant_data (meta : EventMetadata) (participant : gmap string string)
    : M (gmap string string) :=
  first_name ← getitem participant "first_name";
  last_name ← getitem participant "last_name";
  linkedin ← getitem participant "linkedin";
  mret (<["first_name" := first_name]>
        (<["last_name" := last_name]>
        (<["linkedin" := linkedin]>
        (<["custom_att_1" := event_title meta]>
        (<["custom_att_2" := event_date meta]>
        (<["custom_att_3" := event_time meta]>
        (<["custom_att_4" := event_place meta]>
        (<["custom_att_5" := event_host meta]>
        (<["custom_att_6" := "Luma"]> ∅))))))))).

(** [writer.writerow(d)]: the values of [d] in the order of
    [fieldnames] (a missing key would be written as the empty string). *)
Definition writerow (d : gmap string string) : M unit :=
  append_row (map (fun k => default "" (d !! k)) fieldnames).

(** Lines 257-269. *)
Fixpoint write_rows (meta : EventMetadata) (participants : list (gmap string string)) : M unit :=
  match participants with
  | [] => mret tt
  | participant :: rest =>
      d ← participant_data meta participant;
      writerow d;;
      write_rows meta rest
  end.

(** Lines 236-271: the export step. *)
Definition export (w : World) (downloads_path : string) (meta : EventMetadata)
    (participants : list (gmap string string)) : M unit :=
  print (newline ++ "Saving to CSV in " ++ downloads_path);;
  let csv_path := downloads_path ++ "/luma_participants.csv" in
  ask (open_csv w);;
  create_csv;;
  append_row fieldnames;;
  write_rows meta participants;;
  print ("CSV file saved to: " ++ csv_path).

(** Lines 51-141: start the browser, log in when no session file is
    there, load the event page, read the event details and open the
    guest list. *)
Definition setup (w : World) (url : string) : M EventMetadata :=
  ask (launch w);;
  (if session_exists w then mret tt else login w url);;
  ask (pause_after_login w);;
  print "Signed in, navigating to event page";;
  ask (open_event w url);;
  print "Navigated to event page";;
  meta ← read_metadata w;
  open_guest_list w;;
  mret meta.

(** Lines 51-177: up to the query for the rendered guest entries; the
    loading loop is given [fuel] rounds. *)
Definition render (fuel : nat) (w : World) (url : string) : M (EventMetadata * list Entry) :=
  meta ← setup w url;
  s ← load_participants fuel w 0 initial;
  print ("Total participants loaded: " ++ str_of_int (current_participant_count s));;
  participant_elements ← ask (entries w);
  mret (meta, participant_elements).

(** Lines 51-234: everything before the export step. *)
Definition collect (fuel : nat) (w : World) (url : string)
    : M (EventMetadata * list (gmap string string)) :=
  rendered ← render fuel w url;
  participants ← extract_all w rendered.2 [];
  participants ← resolve_all w 0 participants;
  print ("Participants length: " ++ str_of_int (Z.of_nat (length participants)));;
  let participants := keep_resolved participants in
  print ("Participants length after filtering: " ++ str_of_int (Z.of_nat (length participants)));;
  mret (rendered.1, participants).

(** The body of [scrape_luma_event], lines 46-274. *)
Definition scrape_body (fuel : nat) (w : World) (url : string) : M unit :=
  let downloads_path := home w ++ "/Downloads" in
  collected ← collect fuel w url;
  export w downloads_path collected.1 collected.2;;
  ask (close_browser w).

(** [scrape_luma_event], decorated (line 38). *)
Definition scrape_luma_event (fuel : nat) (w : World) : string -> M (option unit) :=
  handle_exceptions (scrape_body fuel w).

(** A participant whose ["linkedin"] entry, if it has one, is not empty. *)
Definition linkedin_ok (p : gmap string string) : Prop :=
  forall v, p !! "linkedin" = Some v -> v <> "".

(** A participant that has a non-empty ["linkedin"] entry. *)
Definition resolved (p : gmap string string) : Prop :=
  exists v, p !! "linkedin" = Some v /\ v <> "".

(** [meta] is what lines 97-120 read from the page. *)
Definition metadata_of (w : World) (meta : EventMetadata) : Prop :=
  title_text w = Val (event_title meta) /\
  date_text w = Val (event_date meta) /\
  time_text w = Val (event_time meta) /\
  host_text w = Val (event_host meta) /\
  exists n, irl_count w = Val n /\
    if (0 <? n)%Z
    then exists t d, irl_title w = Val t /\ irl_desc w = Val d /\
                     event_place meta = t ++ ", " ++ d
    else virtual_title w = Val (event_place meta).

(** A data row of the CSV file for the event [meta]: a non-empty
    LinkedIn URL in the third column, the event's five details and the
    source tag in the last six. *)
Definition exported_row (meta : EventMetadata) (row : list string) : Prop :=
  exists first_name last_name linkedin,
    linkedin <> "" /\
    row = [first_name; last_name; linkedin;
           event_title meta; event_date meta; event_time meta;
           event_place meta; event_host meta; "Luma"].

End Scraper.

(* ===================================================================== *)
(** ** A sample event page *)
(* ===================================================================== *)

Module Sample.
Import Exc Run Scraper.

(** A page driver that never fails, with a session file present: the
    guest count reads [counts k] in round [k], the guest list renders
    [elements], and [profile] answers for the profile pages. *)
Definition page (counts : nat -> Z) (elements : list Entry)
    (profile : nat -> string -> ProfilePage) : World :=
  {| home := "/home/wes";
     session_exists := true;
     launch := Val tt;
     open_login := fun _ => Val tt;
     submit_email := Val tt;
     read_code := Val "123456";
     enter_code := fun _ => Val tt;
     save_session := Val tt;
     pause_after_login := Val tt;
     open_event := fun _ => Val tt;
     title_text := Val "AI for Developers";
     date_text := Val "Thursday, May 22";
     time_text := Val "6:00 PM - 8:00 PM";
     irl_count := Val 1%Z;
     irl_title := Val "Shack15";
     irl_desc := Val "San Francisco, California";
     virtual_title := Val "Zoom";
     host_text := Val "GitAuto";
     open_guests := Val tt;
     wait_modal := Val tt;
     modal_html := Val "<div></div>";
     count_at := fun k => Val (counts k);
     scroll_at := fun _ => Val tt;
     entries := Val elements;
     profile_at := profile;
     open_csv := Val tt;
     close_browser := Val tt;
     unicode := PyStr.ascii_case |}.

Definition guest (name link : string) : Entry := mk_entry (Val name) (Val (Some link)).

(** A profile page with a LinkedIn link. *)
Definition with_link (url : string) : ProfilePage :=
  mk_profile (Val tt) (Val 1%Z) (Val (Some url)).

(** A profile page with no LinkedIn link. *)
Definition without_link : ProfilePage := mk_profile (Val tt) (Val 0%Z) (Val None).

(** Three guests are rendered from the first round on; the first has a
    LinkedIn link, the second shows an e-mail address as name, the
    third has no link. *)
Definition demo : World :=
  page (fun _ => 3%Z)
    [guest "jane DOE" "/user/usr-1"; guest "user@example.com" "/user/usr-2";
     guest "Madonna" "/user/usr-3"]
    (fun i _ => match i with
                | O => with_link "https://linkedin.com/in/jane"
                | _ => without_link
                end).

(** The same page, with a guest whose name is blank. *)
Definition blank_demo : World :=
  page (fun _ => 2%Z)
    [guest "Jane Doe" "/user/usr-1"; guest "  " "/user/usr-2"]
    (fun _ _ => with_link "https://linkedin.com/in/jane").

(** The user interrupts the script at the prompt for the verification
    code (no session file is there). *)
Definition interrupted : World :=
  {| home := "/home/wes";
     session_exists := false;
     launch := Val tt;
     open_login := fun _ => Val tt;
     submit_email := Val tt;
     read_code := Exn (mk_exn KeyboardInterrupt "");
     enter_code := fun _ => Val tt;
     save_session := Val tt;
     pause_after_login := Val tt;
     open_event := fun _ => Val tt;
     title_text := Val "AI for Developers";
     date_text := Val "Thursday, May 22";
     time_text := Val "6:00 PM - 8:00 PM";
     irl_count := Val 0%Z;
     irl_title := Val "";
     irl_desc := Val "";
     virtual_title := Val "Zoom";
     host_text := Val "GitAuto";
     open_guests := Val tt;
     wait_modal := Val tt;
     modal_html := Val "<div></div>";
     count_at := fun _ => Val 0%Z;
     scroll_at := fun _ => Val tt;
     entries := Val [];
     profile_at := fun _ _ => without_link;
     open_csv := Val tt;
     close_browser := Val tt;
     unicode := PyStr.ascii_case |}.

Definition event_url : string := "https://lu.ma/ai-for-developers-22?tk=SzndEF".

End Sample.

(* ===================================================================== *)
(** ** Notions used to state further properties *)
(* ===================================================================== *)

Module Props.
Import PyStr Exc Run Detector Scraper.

(** [m] always comes to an end: it returns a value satisfying [Q], or
    raises an exception satisfying [E]. *)
Definition ends_with {A} (E : exn -> Prop) (Q : A -> Prop) (m : M A) : Prop :=
  forall s,
    match m s with
    | (Val a, _) => Q a
    | (Exn e, _) => E e
    | (Running, _) => False
    end.

(** No rendered entry has a blank name. *)
Definition no_blank_name (elements : list Entry) : Prop :=
  Forall (fun element =>
            forall full_name, name_text element = Val full_name ->
                              blank full_name = false) elements.

(** [m] leaves the session file as it found it, however it ends. *)
Definition keeps_session {A} (m : M A) : Prop :=
  forall s, session_file (m s).2 = session_file s.

(** The answer of the page driver is a value, not an exception. *)
Definition answered {A} (r : outcome A) : Prop := exists a, r = Val a.

(** A page driver and file system that never fail. *)
Definition calm (w : World) : Prop :=
  answered (launch w) /\ (forall u, answered (open_login w u)) /\
  answered (submit_email w) /\ answered (read_code w) /\
  (forall c, answered (enter_code w c)) /\ answered (save_session w) /\
  answered (pause_after_login w) /\ (forall u, answered (open_event w u)) /\
  answered (title_text w) /\ answered (date_text w) /\ answered (time_text w) /\
  answered (irl_count w) /\ answered (irl_title w) /\ answered (irl_desc w) /\
  answered (virtual_title w) /\ answered (host_text w) /\
  answered (open_guests w) /\ answered (wait_modal w) /\ answered (modal_html w) /\
  (forall k, answered (count_at w k)) /\ (forall k, answered (scroll_at w k)) /\
  (exists elements, entries w = Val elements /\
     Forall (fun element => answered (name_text element) /\ answered (href element)) elements) /\
  (forall i u, answered (visit (profile_at w i u)) /\ answered (link_count (profile_at w i u)) /\
               answered (link_href (profile_at w i u))) /\
  answered (open_csv w) /\ answered (close_browser w).

(** A participant dict with the three keys of lines 200-204. *)
Definition has_name_keys (p : gmap string string) : Prop :=
  is_Some (p !! "first_name") /\ is_Some (p !! "last_name") /\ is_Some (p !! "profile_url").

(** The CSV row of a participant: its three fields, then the event's. *)
Definition row_of (meta : EventMetadata) (p : gmap string string) : list string :=
  [default "" (p !! "first_name"); default "" (p !! "last_name"); default "" (p !! "linkedin");
   event_title meta; event_date meta; event_time meta;
   event_place meta; event_host meta; "Luma"].

(** [sep in s]. *)
Fixpoint occurs (sep s : string) : bool :=
  startswith sep s ||
  match s with
  | EmptyString => false
  | String _ s' => occurs sep s'
  end.

(** [sep] occurs in [a ++ tail] starting at a position inside [a]. *)
Fixpoint early (sep a tail : string) : bool :=
  match a with
  | EmptyString => false
  | String _ a' => startswith sep (a ++ tail)%string || early sep a' tail
  end.

(** [s] with standard output extended by one printed line. *)
Definition printed (text : string) (s : Sys) : Sys :=
  mk_sys (stdout s ++ text ++ newline)%string (session_file s) (csv_file s).

End Props.

(* ===================================================================== *)
(** ** More sample pages *)
(* ===================================================================== *)

Module MoreSamples.
Import Exc Run Scraper.

Definition timed_out : exn := mk_exn PlaywrightTimeoutError "Timeout 30000ms exceeded.".

(** U+00A0, NO-BREAK SPACE, in UTF-8. *)
Definition nbsp : string :=
  String (ascii_of_nat 194) (String (ascii_of_nat 160) EmptyString).

(** No session file is there, and the sign-in page for the sample event
    fails to load with [e]; everything else answers. *)
Definition signin_down (e : exn) : World :=
  {| home := "/home/wes";
     session_exists := false;
     launch := Val tt;
     open_login := fun u =>
       if String.eqb u "https://lu.ma/signin?next=ai-for-developers-22?tk=SzndEF"
       then Exn e else Val tt;
     submit_email := Val tt;
     read_code := Val "123456";
     enter_code := fun _ => Val tt;
     save_session := Val tt;
     pause_after_login := Val tt;
     open_event := fun _ => Val tt;
     title_text := Val "AI for Developers";
     date_text := Val "Thursday, May 22";
     time_text := Val "6:00 PM - 8:00 PM";
     irl_count := Val 0%Z;
     irl_title := Val "";
     irl_desc := Val "";
     virtual_title := Val "Zoom";
     host_text := Val "GitAuto";
     open_guests := Val tt;
     wait_modal := Val tt;
     modal_html := Val "<div></div>";
     count_at := fun _ => Val 0%Z;
     scroll_at := fun _ => Val tt;
     entries := Val [];
     profile_at := fun _ _ => Sample.without_link;
     open_csv := Val tt;
     close_browser := Val tt;
     unicode := PyStr.ascii_case |}.

(** No session file is there; the login goes through and the guest
    list is empty. *)
Definition first_visit : World :=
  {| home := "/home/wes";
     session_exists := false;
     launch := Val tt;
     open_login := fun _ => Val tt;
     submit_email := Val tt;
     read_code := Val "123456";
     enter_code := fun _ => Val tt;
     save_session := Val tt;
     pause_after_login := Val tt;
     open_event := fun _ => Val tt;
     title_text := Val "AI for Developers";
     date_text := Val "Thursday, May 22";
     time_text := Val "6:00 PM - 8:00 PM";
     irl_count := Val 0%Z;
     irl_title := Val "";
     irl_desc := Val "";
     virtual_title := Val "Zoom";
     host_text := Val "GitAuto";
     open_guests := Val tt;
     wait_modal := Val tt;
     modal_html := Val "<div></div>";
     count_at := fun _ => Val 0%Z;
     scroll_at := fun _ => Val tt;
     entries := Val [];
     profile_at := fun _ _ => Sample.without_link;
     open_csv := Val tt;
     close_browser := Val tt;
     unicode := PyStr.ascii_case |}.

(** The CSV file cannot be opened for writing. *)
Definition read_only (e : exn) : World :=
  {| home := "/home/wes";
     session_exists := true;
     launch := Val tt;
     open_login := fun _ => Val tt;
     submit_email := Val tt;
     read_code := Val "123456";
     enter_code := fun _ => Val tt;
     save_session := Val tt;
     pause_after_login := Val tt;
     open_event := fun _ => Val tt;
     title_text := Val "AI for Developers";
     date_text := Val "Thursday, May 22";
     time_text := Val "6:00 PM - 8:00 PM";
     irl_count := Val 0%Z;
     irl_title := Val "";
     irl_desc := Val "";
     virtual_title := Val "Zoom";
     host_text := Val "GitAuto";
     open_guests := Val tt;
     wait_modal := Val tt;
     modal_html := Val "<div></div>";
     count_at := fun _ => Val 0%Z;
     scroll_at := fun _ => Val tt;
     entries := Val [];
     profile_at := fun _ _ => Sample.without_link;
     open_csv := Exn e;
     close_browser := Val tt;
     unicode := PyStr.ascii_case |}.

End MoreSamples.

(* ===================================================================== *)
(** ** Properties of the string operations *)
(* ===================================================================== *)

Module PyStrFacts.
Import PyStr.

Lemma append_nil_r s : s ++ "" = s.
Proof. induction s as [|c s IH]; [done |]. change (String c (s ++ "") = String c s). by rewrite IH. Qed.

Lemma contains_char_app c a b : contains_char c (a ++ String c b) = true.
Proof.
  induction a as [|d a IH]; simpl.
  - by rewrite Ascii.eqb_refl.
  - by destruct (Ascii.eqb c d).
Qed.

Lemma contains_char_split c s :
  contains_char c s = true -> exists a b, s = a ++ String c b.
Proof.
  induction s as [|d s IH]; simpl; [done |].
  destruct (Ascii.eqb c d) eqn:Hcd.
  - apply Ascii.eqb_eq in Hcd as ->. intros _. by exists "", s.
  - intros H. destruct (IH H) as (a & b & ->). by exists (String d a), b.
Qed.



Ltac case_ifs :=
  repeat match goal with
         | H : context [if ?b then _ else _] |- _ => destruct b eqn:?
         | |- context [if ?b then _ else _] => destruct b eqn:?
         end.

Lemma space_width_le s : (space_width s <= String.length s)%nat.
Proof. destruct s as [|a [|b [|c r]]]; simpl; case_ifs; lia. Qed.

Lemma space_width_max s : (space_width s <= 3)%nat.
Proof. destruct s as [|a [|b [|c r]]]; simpl; case_ifs; lia. Qed.


Lemma lstrip_nonspace s : space_width s = 0%nat -> lstrip s = s.
Proof.
  destruct s as [|a s1]; [done |]. intros H.
  change (lstrip (String a s1)) with
    (match space_width (String a s1) with
     | O => String a s1
     | S O => lstrip s1
     | S (S O) => match s1 with String _ s2 => lstrip s2 | EmptyString => EmptyString end
     | _ => match s1 with String _ (String _ s3) => lstrip s3 | _ => EmptyString end
     end).
  by rewrite H.
Qed.

Lemma lstrip_space s k : space_width s = S k -> lstrip s = lstrip (drop_bytes (S k) s).
Proof.
  intros H. pose proof (space_width_le s) as Hle. pose proof (space_width_max s) as Hmax.
  destruct s as [|a s1]; [done |].
  change (lstrip (String a s1)) with
    (match space_width (String a s1) with
     | O => String a s1
     | S O => lstrip s1
     | S (S O) => match s1 with String _ s2 => lstrip s2 | EmptyString => EmptyString end
     | _ => match s1 with String _ (String _ s3) => lstrip s3 | _ => EmptyString end
     end).
  rewrite H in *. destruct k as [|[|[|k]]]; [| | | lia].
  - by destruct s1.
  - destruct s1 as [|b s2]; simpl in Hle; [lia |]. by destruct s2.
  - destruct s1 as [|b [|c s3]]; simpl in Hle; [lia | lia |]. by destruct s3.
Qed.


Lemma drop_bytes_length n s :
  String.length (drop_bytes n s) = (String.length s - n)%nat.
Proof.
  revert s. induction n as [|n IH]; intros s; [destruct s; simpl; lia |].
  destruct s as [|c s]; simpl; [done | apply IH].
Qed.

Lemma blank_space s k : space_width s = S k -> blank s = blank (drop_bytes (S k) s).
Proof. intros H. unfold blank. by rewrite (lstrip_space s k H). Qed.

Lemma blank_nonspace s : space_width s = 0%nat -> blank s = true -> s = "".
Proof. intros H. unfold blank. rewrite (lstrip_nonspace s H). by destruct s. Qed.


Lemma lstrip_blank s : blank s = true -> lstrip s = "".
Proof. unfold blank. by destruct (lstrip s). Qed.





Lemma split_maxsplit1_blank s : blank s = true -> split_maxsplit1 s = [].
Proof. intros H. unfold split_maxsplit1. by rewrite lstrip_blank. Qed.

Lemma split_maxsplit1_nil s : split_maxsplit1 s = [] -> blank s = true.
Proof.
  unfold split_maxsplit1, blank. destruct (lstrip s) as [|c r] eqn:Hl; [done |].
  destruct (take_token (String c r)) as [tok rest]. by destruct (lstrip rest).
Qed.


Lemma at_not_space_byte a : Ascii.eqb "@" a = true -> isspace_byte a = false.
Proof. intros H. apply Ascii.eqb_eq in H as <-. reflexivity. Qed.

Lemma at_not_lead a : Ascii.eqb "@" a = true -> (nat_of_ascii a =? 64)%nat = true.
Proof. intros H. apply Ascii.eqb_eq in H as <-. reflexivity. Qed.

(** The bytes of a whitespace character are not ["@"]. *)
Lemma space_no_at s k :
  space_width s = S k -> contains_char "@" s = contains_char "@" (drop_bytes (S k) s).
Proof.
  assert (forall a b, isspace_2 a b = true ->
            Ascii.eqb "@" a = false /\ Ascii.eqb "@" b = false) as H2.
  { intros a b H. unfold isspace_2 in H.
    split; destruct (Ascii.eqb "@" _) eqn:He; try done;
      apply at_not_lead, Nat.eqb_eq in He; rewrite He in H; simpl in H;
      rewrite ?andb_false_r in H; done. }
  assert (forall a b c, isspace_3 a b c = true ->
            Ascii.eqb "@" a = false /\ Ascii.eqb "@" b = false /\ Ascii.eqb "@" c = false) as H3.
  { intros a b c H. unfold isspace_3 in H.
    split_and!; destruct (Ascii.eqb "@" _) eqn:He; try done;
      apply at_not_lead, Nat.eqb_eq in He; rewrite He in H; simpl in H;
      rewrite ?andb_false_r, ?andb_false_l, ?orb_false_r in H; simpl in H; try done;
      repeat (destruct (_ =? _)%nat; simpl in H; try done). }
  assert (forall a, isspace_byte a = true -> Ascii.eqb "@" a = false) as H1.
  { intros a H. destruct (Ascii.eqb "@" a) eqn:He; [| done].
    apply at_not_space_byte in He. congruence. }
  assert (forall d t, contains_char "@" (String d t)
                      = if Ascii.eqb "@" d then true else contains_char "@" t) as Hcons by done.
  intros Hw. destruct s as [|a [|b [|c r]]]; simpl in Hw; case_ifs; try done;
    injection Hw as <-; cbn [drop_bytes];
    repeat match goal with
           | H : isspace_byte _ = true |- _ => apply H1 in H
           | H : isspace_2 _ _ = true |- _ => apply H2 in H as [? ?]
           | H : isspace_3 _ _ _ = true |- _ => apply H3 in H as (? & ? & ?)
           end;
    rewrite !Hcons;
    repeat match goal with H : Ascii.eqb "@" _ = false |- _ => rewrite H; clear H end;
    done.
Qed.

(** Whitespace contains no ["@"]. *)
Lemma blank_no_at s : blank s = true -> contains_char "@" s = false.
Proof.
  remember (String.length s) as n eqn:Hn. revert s Hn.
  induction n as [n IH] using lt_wf_ind. intros s Hn Hblank.
  destruct (space_width s) as [|k] eqn:Hw.
  - by rewrite (blank_nonspace s Hw Hblank).
  - pose proof (space_width_le s) as Hle.
    rewrite (space_no_at s k Hw).
    apply (IH (String.length (drop_bytes (S k) s))); [| done |].
    + rewrite drop_bytes_length. lia.
    + by rewrite <- (blank_space s k Hw).
Qed.

(** ASCII whitespace is blank. *)
Lemma ascii_blank s : all_chars isspace_byte s = true -> blank s = true.
Proof.
  induction s as [|a s IH]; [done |]. simpl. intros [Ha Hs]%andb_true_iff.
  assert (space_width (String a s) = 1%nat) as Hw.
  { destruct s as [|b [|c r]]; simpl; by rewrite Ha. }
  rewrite (blank_space _ _ Hw). simpl. by apply IH.
Qed.

(** A no-break space separates the parts of a name, and a name made of
    no-break spaces, or of an ideographic space (U+3000), has none. *)
Example split_at_nbsp :
  split_maxsplit1 ("Jane" ++ MoreSamples.nbsp ++ "Doe") = ["Jane"; "Doe"] /\
  split_maxsplit1 (MoreSamples.nbsp ++ MoreSamples.nbsp) = [] /\
  blank (String (ascii_of_nat 227) (String (ascii_of_nat 128) (String (ascii_of_nat 128) "")))
  = true.
Proof. by vm_compute. Qed.

End PyStrFacts.

(* ===================================================================== *)
(** ** Properties of the loading loop *)
(* ===================================================================== *)

Module DetectorFacts.
Import Detector.
Local Open Scope Z_scope.
Local Open Scope list_scope.

Lemma after_snoc reads count s :
  after (reads ++ [count]) s = loop_round count (after reads s).
Proof. unfold after. by rewrite fold_left_app. Qed.

Lemma reads_of_S signal n :
  reads_of signal (S n) = reads_of signal n ++ [signal n].
Proof. unfold reads_of. by rewrite seq_S, map_app. Qed.

Lemma reads_of_length signal n : length (reads_of signal n) = n.
Proof. unfold reads_of. by rewrite length_map, length_seq. Qed.

Lemma take_reads_of signal m n :
  (m <= n)%nat -> take m (reads_of signal n) = reads_of signal m.
Proof.
  intros Hmn. unfold reads_of.
  rewrite firstn_map.
  f_equal. replace n with (m + (n - m))%nat by lia.
  rewrite seq_app. rewrite take_app_length'; [done | by rewrite length_seq].
Qed.

(** The loop stops at the first round boundary where its condition fails. *)
Lemma detect_stable_intro reads : forall rounds s m,
  (m <= length reads)%nat ->
  continues (after (take m reads) s) = false ->
  (forall j, (j < m)%nat -> continues (after (take j reads) s) = true) ->
  detect reads rounds s = Stable (rounds + m) (current_participant_count (after (take m reads) s)).
Proof.
  induction reads as [|count rest IH]; intros rounds s m Hm Hstop Hgo.
  - simpl in Hm. assert (m = 0)%nat as -> by lia. simpl in *.
    rewrite Hstop. by rewrite Nat.add_0_r.
  - destruct m as [|m].
    + simpl in *. rewrite Hstop. by rewrite Nat.add_0_r.
    + simpl. assert (continues s = true) as -> by (apply (Hgo 0%nat); lia).
      rewrite (IH (S rounds) (loop_round count s) m).
      * f_equal. lia.
      * simpl in Hm. lia.
      * exact Hstop.
      * intros j Hj. apply (Hgo (S j)). lia.
Qed.

Lemma detect_polling_intro reads : forall rounds s,
  (forall j, (j <= length reads)%nat -> continues (after (take j reads) s) = true) ->
  detect reads rounds s = Polling (rounds + length reads) (after reads s).
Proof.
  induction reads as [|count rest IH]; intros rounds s Hgo.
  - simpl. assert (continues s = true) as -> by (apply (Hgo 0%nat); simpl; lia).
    by rewrite Nat.add_0_r.
  - simpl. assert (continues s = true) as -> by (apply (Hgo 0%nat); simpl; lia).
    rewrite IH.
    + f_equal. lia.
    + intros j Hj. apply (Hgo (S j)). simpl. lia.
Qed.

(** Either the condition fails at some first boundary, or it holds at all. *)
Lemma first_stop reads s :
  (exists m, (m <= length reads)%nat /\
             continues (after (take m reads) s) = false /\
             forall j, (j < m)%nat -> continues (after (take j reads) s) = true)
  \/ (forall j, (j <= length reads)%nat -> continues (after (take j reads) s) = true).
Proof.
  assert (forall n, (n <= S (length reads))%nat ->
    (exists m, (m < n)%nat /\
               continues (after (take m reads) s) = false /\
               forall j, (j < m)%nat -> continues (after (take j reads) s) = true)
    \/ (forall j, (j < n)%nat -> continues (after (take j reads) s) = true)) as H.
  { induction n as [|n IH]; intros Hn.
    - right. intros j Hj. lia.
    - destruct IH as [(m & Hm & Hs & Hg) | Hall]; [lia | |].
      + left. exists m. split; [lia | done].
      + destruct (continues (after (take n reads) s)) eqn:Hc.
        * right. intros j Hj. destruct (decide (j = n)) as [->|]; [done | apply Hall; lia].
        * left. exists n. split; [lia | done]. }
  destruct (H (S (length reads))) as [(m & Hm & Hs & Hg) | Hall]; [lia | |].
  - left. exists m. split; [lia | done].
  - right. intros j Hj. apply Hall. lia.
Qed.

Lemma detect_stable_inv reads rounds s n total :
  detect reads rounds s = Stable n total ->
  exists m, (m <= length reads)%nat /\ n = (rounds + m)%nat /\
            total = current_participant_count (after (take m reads) s) /\
            continues (after (take m reads) s) = false /\
            forall j, (j < m)%nat -> continues (after (take j reads) s) = true.
Proof.
  intros Hd. destruct (first_stop reads s) as [(m & Hm & Hs & Hg) | Hall].
  - rewrite (detect_stable_intro reads rounds s m Hm Hs Hg) in Hd.
    injection Hd as <- <-. exists m. done.
  - rewrite (detect_polling_intro reads rounds s Hall) in Hd. discriminate.
Qed.

Lemma detect_polling_inv reads rounds s n s' :
  detect reads rounds s = Polling n s' ->
  n = (rounds + length reads)%nat /\ s' = after reads s /\
  forall j, (j <= length reads)%nat -> continues (after (take j reads) s) = true.
Proof.
  intros Hd. destruct (first_stop reads s) as [(m & Hm & Hs & Hg) | Hall].
  - rewrite (detect_stable_intro reads rounds s m Hm Hs Hg) in Hd. discriminate.
  - rewrite (detect_polling_intro reads rounds s Hall) in Hd.
    injection Hd as <- <-. done.
Qed.

(** What the loop variables hold after [n] rounds of a live signal. *)
Lemma after_reads_of signal n :
  let s := after (reads_of signal n) initial in
  current_participant_count s = previous signal n /\
  last_participant_count s = previous signal n /\
  attempts s = Z.of_nat (streak signal n).
Proof.
  induction n as [|n (IHc & IHl & IHa)]; [done |].
  cbn zeta in *. rewrite reads_of_S, after_snoc.
  unfold loop_round. simpl. rewrite IHl, IHa.
  unfold unchanged. destruct (signal n =? previous signal n); split_and!; try done. lia.
Qed.

Lemma continues_after signal n :
  continues (after (reads_of signal n) initial) = bool_decide (streak signal n < 3)%nat.
Proof.
  unfold continues, max_attempts.
  destruct (after_reads_of signal n) as (_ & _ & ->).
  case_bool_decide; [apply Z.ltb_lt | apply Z.ltb_ge]; lia.
Qed.

(** A streak of three is three consecutive unchanged rounds. *)
Lemma streak_three signal n :
  (3 <= streak signal n)%nat ->
  exists k, n = (k + 3)%nat /\ unchanged signal k = true /\
            unchanged signal (k + 1) = true /\ unchanged signal (k + 2) = true.
Proof.
  intros H.
  destruct n as [|[|[|k]]]; simpl in H;
    repeat match type of H with context [if ?b then _ else _] => destruct b eqn:? end;
    try lia.
  exists k. replace (k + 1)%nat with (S k) by lia. replace (k + 2)%nat with (S (S k)) by lia.
  split; [lia | done].
Qed.

Lemma three_streak signal k :
  unchanged signal k = true -> unchanged signal (k + 1) = true ->
  unchanged signal (k + 2) = true ->
  (3 <= streak signal (k + 3))%nat.
Proof.
  intros H0 H1 H2.
  replace (k + 3)%nat with (S (S (S k))) by lia.
  replace (k + 1)%nat with (S k) in H1 by lia. replace (k + 2)%nat with (S (S k)) in H2 by lia.
  simpl. rewrite H2, H1, H0. lia.
Qed.

Lemma watch_stable_iff signal n rounds total :
  watch signal n = Stable rounds total <->
  (rounds <= n)%nat /\ (3 <= streak signal rounds)%nat /\
  (forall j, (j < rounds)%nat -> (streak signal j < 3)%nat) /\
  total = previous signal rounds.
Proof.
  unfold watch. split.
  - intros Hd. apply detect_stable_inv in Hd as (m & Hm & -> & -> & Hs & Hg).
    rewrite reads_of_length in Hm. simpl.
    rewrite take_reads_of in * by done.
    rewrite continues_after in Hs. apply bool_decide_eq_false in Hs.
    destruct (after_reads_of signal m) as (-> & _ & _).
    split_and!; [done | lia | | done].
    intros j Hj. specialize (Hg j Hj).
    rewrite take_reads_of, continues_after in Hg by lia.
    by apply bool_decide_eq_true in Hg.
  - intros (Hn & Hs & Hg & ->).
    rewrite (detect_stable_intro _ 0 initial rounds).
    + simpl. rewrite take_reads_of by done.
      by destruct (after_reads_of signal rounds) as (-> & _ & _).
    + by rewrite reads_of_length.
    + rewrite take_reads_of, continues_after by done.
      apply bool_decide_eq_false. lia.
    + intros j Hj. rewrite take_reads_of, continues_after by lia.
      apply bool_decide_eq_true. by apply Hg.
Qed.

Lemma watch_polling_iff signal n :
  (exists s, watch signal n = Polling n s) <->
  (forall j, (j <= n)%nat -> (streak signal j < 3)%nat).
Proof.
  unfold watch. split.
  - intros (s & Hd). apply detect_polling_inv in Hd as (_ & _ & Hg).
    intros j Hj. specialize (Hg j). rewrite reads_of_length in Hg.
    specialize (Hg Hj). rewrite take_reads_of, continues_after in Hg by done.
    by apply bool_decide_eq_true in Hg.
  - intros Hg. eexists. rewrite detect_polling_intro.
    + by rewrite reads_of_length.
    + intros j Hj. rewrite reads_of_length in Hj.
      rewrite take_reads_of, continues_after by done.
      apply bool_decide_eq_true. by apply Hg.
Qed.

End DetectorFacts.

(* ===================================================================== *)
(** ** Reasoning about runs *)
(* ===================================================================== *)

Module RunFacts.
Import Exc Run.

Lemma bind_val {A B} (m : M A) (f : A -> M B) s a s' :
  m s = (Val a, s') -> (m ≫= f) s = f a s'.
Proof. intros H. unfold mbind, M_bind. by rewrite H. Qed.

Lemma bind_exn {A B} (m : M A) (f : A -> M B) s e s' :
  m s = (Exn e, s') -> (m ≫= f) s = (Exn e, s').
Proof. intros H. unfold mbind, M_bind. by rewrite H. Qed.

Lemma bind_running {A B} (m : M A) (f : A -> M B) s s' :
  m s = (Running, s') -> (m ≫= f) s = (Running, s').
Proof. intros H. unfold mbind, M_bind. by rewrite H. Qed.

Lemma bind_val_inv {A B} (m : M A) (f : A -> M B) s b s2 :
  (m ≫= f) s = (Val b, s2) ->
  exists a s1, m s = (Val a, s1) /\ f a s1 = (Val b, s2).
Proof.
  unfold mbind, M_bind. destruct (m s) as [[a|e|] s1]; intros H; try discriminate.
  by exists a, s1.
Qed.

(** A bind raises when its first part does, or its second part does
    after the first returned. *)
Lemma bind_exn_inv {A B} (m : M A) (f : A -> M B) s e s2 :
  (m ≫= f) s = (Exn e, s2) ->
  m s = (Exn e, s2) \/ exists a s1, m s = (Val a, s1) /\ f a s1 = (Exn e, s2).
Proof.
  unfold mbind, M_bind. destruct (m s) as [[a|e'|] s1]; intros H; try discriminate.
  - right. by exists a, s1.
  - left. congruence.
Qed.

Section KeepsCsv.
Context {A B : Type}.

Lemma keeps_csv_ret (a : A) : keeps_csv (mret a).
Proof. by intros s. Qed.

Lemma keeps_csv_bind (m : M A) (f : A -> M B) :
  keeps_csv m -> (forall a, keeps_csv (f a)) -> keeps_csv (m ≫= f).
Proof.
  intros Hm Hf s. unfold mbind, M_bind. specialize (Hm s).
  destruct (m s) as [[a|e|] s1]; simpl in *; try done.
  by rewrite Hf.
Qed.

Lemma keeps_csv_ask (r : outcome A) : keeps_csv (ask r).
Proof. by intros s. Qed.

Lemma keeps_csv_raise (e : exn) : keeps_csv (@raise A e).
Proof. by intros s. Qed.

Lemma keeps_csv_running : keeps_csv (@running A).
Proof. by intros s. Qed.
End KeepsCsv.

Lemma keeps_csv_print text : keeps_csv (print text).
Proof. by intros s. Qed.

Lemma keeps_csv_prompt text : keeps_csv (prompt text).
Proof. by intros s. Qed.

Lemma keeps_csv_store_session : keeps_csv store_session.
Proof. by intros s. Qed.

Lemma returns_bind {A B} (m : M A) (f : A -> M B) (P : A -> Prop) (Q : B -> Prop) :
  returns m P -> (forall a, P a -> returns (f a) Q) -> returns (m ≫= f) Q.
Proof.
  intros Hm Hf s b s2 H. apply bind_val_inv in H as (a & s1 & Ha & Hb).
  exact (Hf a (Hm _ _ _ Ha) _ _ _ Hb).
Qed.

Lemma returns_ret {A} (a : A) (Q : A -> Prop) : Q a -> returns (mret a) Q.
Proof. intros H s a' s' [= <- _]. done. Qed.

Lemma returns_any {A} (m : M A) : returns m (fun _ => True).
Proof. by intros s a s' _. Qed.

Lemma returns_weaken {A} (m : M A) (P Q : A -> Prop) :
  returns m P -> (forall a, P a -> Q a) -> returns m Q.
Proof. intros Hm HPQ s a s' H. apply HPQ. exact (Hm _ _ _ H). Qed.

(** The guard changes the run's outcome and standard output only. *)
Lemma handle_exceptions_csv {Args T} (func : Args -> M T) args s :
  csv_file (handle_exceptions func args s).2 = csv_file (func args s).2.
Proof.
  unfold handle_exceptions. destruct (func args s) as [[v|e|] s']; try done.
  by destruct (is_Exception (exn_class e)).
Qed.

Create HintDb csv.

#[export] Hint Resolve keeps_csv_ret keeps_csv_ask keeps_csv_raise keeps_csv_running
  keeps_csv_print keeps_csv_prompt keeps_csv_store_session : csv.

End RunFacts.

(* ===================================================================== *)
(** ** The loading loop inside the script *)
(* ===================================================================== *)

Module LoopFacts.
Import Run Detector DetectorFacts Scraper.
Local Open Scope Z_scope.
Local Open Scope list_scope.

(** Against such a driver the loop of the script is [detect]: it returns
    the state in which [detect] stops, and is still running when
    [detect] is still polling. *)
Lemma load_participants_detect w signal :
  follows w signal ->
  forall fuel round s sys,
    match detect (map signal (seq round fuel)) round s with
    | Stable n total =>
        exists s', (load_participants fuel w round s sys).1 = Val s' /\
                   current_participant_count s' = total /\
                   s' = after (take (n - round) (map signal (seq round fuel))) s
    | Polling _ _ => (load_participants fuel w round s sys).1 = Running
    end.
Proof.
  intros [Hcount Hscroll]. induction fuel as [|fuel IH]; intros round s sys.
  - simpl. destruct (continues s); [done |].
    exists s. by rewrite Nat.sub_diag.
  - simpl. destruct (continues s) eqn:Hc.
    + unfold mbind, M_bind, ask, print. rewrite Hcount, Hscroll. simpl.
      match goal with |- context [load_participants fuel w (S round) ?s1 ?sys1] =>
        specialize (IH (S round) s1 sys1) end.
      destruct (detect _ _ _) as [n total|] eqn:Hd; [|done].
      destruct IH as (s' & Hrun & Htot & Hs'). exists s'. split_and!; [done | done |].
      apply detect_stable_inv in Hd as (m & _ & -> & _).
      replace (S round + m - round)%nat with (S m) by lia.
      replace (S round + m - S round)%nat with m in Hs' by lia.
      done.
    + exists s. by rewrite Nat.sub_diag.
Qed.

End LoopFacts.

(* ===================================================================== *)
(** ** The phases of the script *)
(* ===================================================================== *)

Module ScraperFacts.
Import PyStr Exc Run RunFacts Detector Scraper.
Local Open Scope list_scope.

Ltac csv_step :=
  first
    [ apply keeps_csv_bind; [| intros ?]
    | solve [auto with csv]
    | match goal with
      | |- keeps_csv (if ?b then _ else _) => destruct b
      | |- keeps_csv (match ?x with _ => _ end) => destruct x
      end ].

Ltac csv_auto := repeat csv_step.

Lemma keeps_csv_getitem_list {A} (l : list A) i : keeps_csv (getitem_list l i).
Proof. unfold getitem_list. csv_auto. Qed.

Lemma keeps_csv_getitem d k : keeps_csv (getitem d k).
Proof. unfold getitem. csv_auto. Qed.

#[export] Hint Resolve keeps_csv_getitem_list keeps_csv_getitem : csv.

Lemma keeps_csv_login w url : keeps_csv (login w url).
Proof. unfold login. csv_auto. Qed.

Lemma keeps_csv_read_metadata w : keeps_csv (read_metadata w).
Proof. unfold read_metadata. csv_auto. Qed.

Lemma keeps_csv_open_guest_list w : keeps_csv (open_guest_list w).
Proof. unfold open_guest_list. csv_auto. Qed.

Lemma keeps_csv_load_participants fuel w : forall round s,
  keeps_csv (load_participants fuel w round s).
Proof.
  induction fuel as [|fuel IH]; intros round s; simpl; destruct (continues s);
    csv_auto.
Qed.

Lemma keeps_csv_extract_entry w element participants :
  keeps_csv (extract_entry w element participants).
Proof. unfold extract_entry. csv_auto. Qed.

Lemma keeps_csv_extract_all w elements : forall participants,
  keeps_csv (extract_all w elements participants).
Proof.
  induction elements as [|element rest IH]; intros participants; simpl.
  - csv_auto.
  - apply keeps_csv_bind; [apply keeps_csv_extract_entry | intros ps; apply IH].
Qed.

Lemma keeps_csv_resolve w i participant : keeps_csv (resolve w i participant).
Proof. unfold resolve. csv_auto. Qed.

Lemma keeps_csv_resolve_all w participants : forall i,
  keeps_csv (resolve_all w i participants).
Proof.
  induction participants as [|participant rest IH]; intros i; simpl.
  - csv_auto.
  - apply keeps_csv_bind; [apply keeps_csv_resolve | intros p].
    apply keeps_csv_bind; [apply IH | intros ps]. csv_auto.
Qed.

#[export] Hint Resolve keeps_csv_login keeps_csv_read_metadata keeps_csv_open_guest_list
  keeps_csv_load_participants keeps_csv_extract_all keeps_csv_resolve_all : csv.

Lemma keeps_csv_setup w url : keeps_csv (setup w url).
Proof. unfold setup. csv_auto. Qed.

#[export] Hint Resolve keeps_csv_setup : csv.

Lemma keeps_csv_render fuel w url : keeps_csv (render fuel w url).
Proof. unfold render. csv_auto. Qed.

#[export] Hint Resolve keeps_csv_render : csv.

(** Nothing before the export step touches the CSV file. *)
Lemma keeps_csv_collect fuel w url : keeps_csv (collect fuel w url).
Proof. unfold collect. csv_auto. Qed.

(** *** What the phases return *)

Lemma ask_val_inv {A} (r : outcome A) s a s' :
  ask r s = (Val a, s') -> r = Val a /\ s' = s.
Proof. unfold ask. intros [= -> ->]. done. Qed.

Lemma returns_ask {A} (r : outcome A) : returns (ask r) (fun a => r = Val a).
Proof. intros s a s' H. by apply ask_val_inv in H as [-> _]. Qed.

Lemma read_metadata_returns w : returns (read_metadata w) (metadata_of w).
Proof.
  unfold read_metadata.
  eapply returns_bind; [apply returns_ask | intros title Htitle].
  eapply returns_bind; [apply returns_ask | intros date Hdate].
  eapply returns_bind; [apply returns_ask | intros time Htime].
  do 3 (eapply returns_bind; [apply returns_any | intros _ _]).
  eapply returns_bind; [apply returns_ask | intros n Hn].
  eapply (returns_bind _ _ (fun place =>
    if (0 <? n)%Z
    then exists t d, irl_title w = Val t /\ irl_desc w = Val d /\
                     place = (t ++ ", " ++ d)%string
    else virtual_title w = Val place)).
  { destruct (0 <? n)%Z.
    - eapply returns_bind; [apply returns_ask | intros t Ht].
      eapply returns_bind; [apply returns_ask | intros d Hd].
      apply returns_ret. by exists t, d.
    - apply returns_ask. }
  intros place Hplace.
  eapply returns_bind; [apply returns_any | intros _ _].
  eapply returns_bind; [apply returns_ask | intros host Hhost].
  eapply returns_bind; [apply returns_any | intros _ _].
  apply returns_ret. unfold metadata_of. simpl. split_and!; try done.
  by exists n.
Qed.

Lemma setup_returns w url : returns (setup w url) (metadata_of w).
Proof.
  unfold setup.
  do 6 (eapply returns_bind; [apply returns_any | intros _ _]).
  eapply returns_bind; [apply read_metadata_returns | intros meta Hmeta].
  eapply returns_bind; [apply returns_any | intros _ _].
  by apply returns_ret.
Qed.

Lemma render_returns fuel w url :
  returns (render fuel w url) (fun rendered => metadata_of w rendered.1).
Proof.
  unfold render.
  eapply returns_bind; [apply setup_returns | intros meta Hmeta].
  do 3 (eapply returns_bind; [apply returns_any | intros ? _]).
  by apply returns_ret.
Qed.

Lemma candidate_linkedin first_name last_name url :
  candidate first_name last_name url !! "linkedin" = None.
Proof. done. Qed.

(** An element adds at most one candidate, at the end. *)
Lemma extract_entry_returns w element participants :
  returns (extract_entry w element participants)
    (fun ps => ps = participants \/
               exists first_name last_name h,
                 href element = Val (Some h) /\ h <> "" /\
                 ps = participants ++ [candidate first_name last_name ("https://lu.ma" ++ h)%string]).
Proof.
  unfold extract_entry.
  eapply returns_bind; [apply returns_any | intros full_name _].
  destruct (contains_char "@" full_name).
  { eapply returns_bind; [apply returns_any | intros _ _]. apply returns_ret. by left. }
  eapply returns_bind; [apply returns_any | intros first_part _].
  eapply returns_bind; [apply returns_any | intros last_name _].
  eapply returns_bind; [apply returns_ask | intros profile_url Hhref].
  destruct profile_url as [[|c h]|]; simpl.
  - eapply returns_bind; [apply returns_any | intros _ _]. apply returns_ret. by left.
  - apply returns_ret. right. by exists (capitalize (unicode w) first_part), last_name, (String c h).
  - eapply returns_bind; [apply returns_any | intros _ _]. apply returns_ret. by left.
Qed.

Lemma extract_all_ok w elements : forall participants,
  Forall linkedin_ok participants ->
  returns (extract_all w elements participants) (Forall linkedin_ok).
Proof.
  induction elements as [|element rest IH]; intros participants Hok; simpl.
  - by apply returns_ret.
  - eapply returns_bind; [apply extract_entry_returns |].
    intros ps [-> | (f & l & h & _ & _ & ->)]; apply IH; [done |].
    apply Forall_app. split; [done |]. apply Forall_singleton.
    intros v Hv. by rewrite candidate_linkedin in Hv.
Qed.

Lemma truthy_nonempty o : truthy o = true -> default "" o <> "".
Proof. by destruct o as [[|c s]|]. Qed.

Lemma resolve_ok w i participant :
  linkedin_ok participant -> returns (resolve w i participant) linkedin_ok.
Proof.
  intros Hok. unfold resolve.
  eapply returns_bind; [apply returns_any | intros first_name _].
  eapply returns_bind; [apply returns_any | intros last_name _].
  eapply returns_bind; [apply returns_any | intros _ _].
  eapply returns_bind; [apply returns_any | intros profile_url _].
  eapply returns_bind; [apply returns_any | intros _ _].
  eapply returns_bind; [apply returns_any | intros n _].
  destruct (n =? 0)%Z.
  { eapply returns_bind; [apply returns_any | intros _ _]. by apply returns_ret. }
  eapply returns_bind; [apply returns_any | intros linkedin_url _].
  destruct (truthy linkedin_url) eqn:Ht; simpl.
  - eapply returns_bind; [apply returns_any | intros _ _]. apply returns_ret.
    intros v. rewrite lookup_insert_eq. intros [= <-]. by apply truthy_nonempty.
  - eapply returns_bind; [apply returns_any | intros _ _]. by apply returns_ret.
Qed.

Lemma resolve_all_ok w participants : forall i,
  Forall linkedin_ok participants ->
  returns (resolve_all w i participants) (Forall linkedin_ok).
Proof.
  induction participants as [|participant rest IH]; intros i Hok; simpl.
  - by apply returns_ret.
  - apply Forall_cons in Hok as [Hp Hrest].
    eapply returns_bind; [by apply resolve_ok | intros p' Hp'].
    eapply returns_bind; [by apply IH | intros rest' Hrest'].
    apply returns_ret. by constructor.
Qed.

Lemma keep_resolved_resolved participants :
  Forall linkedin_ok participants -> Forall resolved (keep_resolved participants).
Proof.
  intros Hok. unfold keep_resolved. apply Forall_forall. intros p Hp.
  apply list_elem_of_In, filter_In in Hp as [Hin Hhas].
  unfold has_linkedin in Hhas. destruct (p !! "linkedin") as [v|] eqn:Hv; [|done].
  exists v. split; [done |].
  rewrite Forall_forall in Hok. apply (Hok p); [by apply list_elem_of_In | done].
Qed.

(** What reaches the export step: the event details read from the page,
    and participants that all have a non-empty LinkedIn URL. *)
Lemma collect_returns fuel w url :
  returns (collect fuel w url)
    (fun collected => metadata_of w collected.1 /\ Forall resolved collected.2).
Proof.
  unfold collect.
  eapply returns_bind; [apply render_returns | intros [meta elements] Hmeta].
  eapply returns_bind; [by apply extract_all_ok | intros ps Hps].
  eapply returns_bind; [by apply resolve_all_ok | intros ps' Hps'].
  do 2 (eapply returns_bind; [apply returns_any | intros _ _]).
  apply returns_ret. split; [done | by apply keep_resolved_resolved].
Qed.

(** *** The Record Extractor *)

Lemma extract_all_app w before after : forall participants s,
  extract_all w (before ++ after) participants s =
  (extract_all w before participants ≫= extract_all w after) s.
Proof.
  induction before as [|element before IH]; intros participants s; simpl.
  - done.
  - unfold mbind, M_bind in *.
    destruct (extract_entry w element participants s) as [[ps|e|] s1]; [| done | done].
    apply IH.
Qed.

(** An entry whose name is blank raises [IndexError] at [name_parts[0]]. *)
Lemma extract_entry_blank w element full_name participants s :
  name_text element = Val full_name ->
  blank full_name = true ->
  extract_entry w element participants s = (Exn index_out_of_range, s).
Proof.
  intros Hname Hblank. unfold extract_entry, mbind, M_bind, ask.
  rewrite Hname.
  rewrite PyStrFacts.blank_no_at by done.
  rewrite PyStrFacts.split_maxsplit1_blank by done. done.
Qed.

(** An entry with a usable name and link yields its candidate. *)
Lemma extract_entry_candidate w element full_name h participants s :
  name_text element = Val full_name ->
  contains_char "@" full_name = false ->
  href element = Val (Some h) -> h <> "" ->
  forall first_part others,
    split_maxsplit1 full_name = first_part :: others ->
    extract_entry w element participants s =
    (Val (participants ++
          [candidate (capitalize (unicode w) first_part)
                     (match others with second_part :: _ => capitalize (unicode w) second_part | [] => "" end)
                     ("https://lu.ma" ++ h)%string]), s).
Proof.
  intros Hname Hat Hhref Hh first_part others Hsplit.
  unfold extract_entry, mbind, M_bind, ask. rewrite Hname, Hat, Hsplit, Hhref.
  destruct h as [|c h]; [done |].
  destruct others as [|second_part others]; done.
Qed.

(** *** The export step *)

Lemma write_rows_csv meta participants : forall s acc,
  Forall linkedin_ok participants ->
  csv_file s = Some acc ->
  exists data, csv_file (write_rows meta participants s).2 = Some (acc ++ data) /\
               Forall (exported_row meta) data.
Proof.
  induction participants as [|p rest IH]; intros s acc Hok Hcsv.
  - exists []. simpl. by rewrite app_nil_r.
  - apply Forall_cons in Hok as [Hp Hrest]. simpl.
    unfold participant_data, getitem, writerow, append_row, mbind, M_bind, mret, M_ret, raise.
    destruct (p !! "first_name") as [first_name|];
      [| exists []; simpl; by rewrite app_nil_r].
    destruct (p !! "last_name") as [last_name|];
      [| exists []; simpl; by rewrite app_nil_r].
    destruct (p !! "linkedin") as [linkedin|] eqn:Hl;
      [| exists []; simpl; by rewrite app_nil_r].
    match goal with |- context [write_rows meta rest ?s1] =>
      destruct (IH s1 (acc ++ [[first_name; last_name; linkedin;
                                event_title meta; event_date meta; event_time meta;
                                event_place meta; event_host meta; "Luma"]]))
        as (data & Hdata & Hrows) end.
    { done. }
    { simpl. by rewrite Hcsv. }
    eexists (_ :: data). split.
    + rewrite Hdata. by rewrite <- app_assoc.
    + constructor; [| done]. exists first_name, last_name, linkedin.
      split; [by apply Hp | done].
Qed.

Lemma resolved_linkedin_ok p : resolved p -> linkedin_ok p.
Proof. intros (v & Hv & Hne) v' Hv'. congruence. Qed.

(** The export step leaves the CSV file alone (when it cannot be
    opened) or leaves it holding the header and rows of the event. *)
Lemma export_csv w downloads_path meta participants s :
  Forall resolved participants ->
  csv_file (export w downloads_path meta participants s).2 = csv_file s \/
  exists data,
    csv_file (export w downloads_path meta participants s).2 = Some (fieldnames :: data) /\
    Forall (exported_row meta) data.
Proof.
  intros Hres. unfold export, mbind, M_bind, print, ask, create_csv, append_row.
  destruct (open_csv w) as [[]|e|]; simpl; [| by left | by left].
  right.
  match goal with |- context [write_rows meta participants ?s1] =>
    destruct (write_rows_csv meta participants s1 [fieldnames]) as (data & Hdata & Hrows);
      [eapply Forall_impl; [exact Hres | apply resolved_linkedin_ok] | done |];
    exists data; split; [| done];
    destruct (write_rows meta participants s1) as [[[]|e|] s2]; simpl in *; done
  end.
Qed.

(** The CSV file after the body: closing the browser does not touch it. *)
Lemma scrape_body_csv_file fuel w url s :
  csv_file (scrape_body fuel w url s).2 =
  match collect fuel w url s with
  | (Val collected, s1) =>
      csv_file (export w (home w ++ "/Downloads")%string collected.1 collected.2 s1).2
  | (_, s1) => csv_file s1
  end.
Proof.
  unfold scrape_body, mbind, M_bind.
  destruct (collect fuel w url s) as [[collected|e|] s1]; simpl; try done.
  destruct (export _ _ _ _ _) as [[[]|?|] ?]; simpl; reflexivity.
Qed.

Lemma scrape_body_csv fuel w url s :
  csv_file (scrape_body fuel w url s).2 = csv_file s \/
  exists meta data,
    metadata_of w meta /\
    csv_file (scrape_body fuel w url s).2 = Some (fieldnames :: data) /\
    Forall (exported_row meta) data.
Proof.
  rewrite scrape_body_csv_file.
  pose proof (keeps_csv_collect fuel w url s) as Hkeep.
  pose proof (collect_returns fuel w url s) as Hret.
  destruct (collect fuel w url s) as [[[meta participants]|e|] s1]; simpl in *;
    [| by left | by left].
  destruct (Hret _ _ eq_refl) as [Hmeta Hres]. simpl in *.
  destruct (export_csv w (home w ++ "/Downloads")%string meta participants s1 Hres)
    as [Hsame | (data & Hdata & Hrows)].
  - left. congruence.
  - right. by exists meta, data.
Qed.

End ScraperFacts.

Import PyStr Exc Run Detector Scraper.

(* ===================================================================== *)
(** ** The Stabilization Detector *)
(* ===================================================================== *)

Section DetectorClaims.
Import DetectorFacts LoopFacts.
Local Open Scope Z_scope.
Local Open Scope list_scope.

(** C1, as stated, fails: after the three reads 5, 5, 5 the loop has not
    stopped (the first read differs from the initial
    [last_participant_count] 0, so only two rounds were unchanged), and
    after 5, 6, 6, 6 it has not stopped either. *)
Lemma C1_mock_sequences_counterexample :
  detect [5; 5; 5] 0 initial <> Stable 3 5 /\
  detect [5; 6; 6; 6] 0 initial <> Stable 4 6.
Proof. split; vm_compute; discriminate. Qed.

(** C1, amended: with threshold 3 and [last_participant_count = 0] at
    the start, the reads 5, 5, 5 leave the loop polling after 3 rounds
    with [attempts = 2], and a fourth read of 5 stops it after exactly 4
    rounds, reporting 5; the reads 5, 6, 6, 6 leave it polling after 4
    rounds with [attempts = 2], and a fourth 6 stops it after exactly 5
    rounds, reporting 6. The loop of the script, on a page whose guest
    count always reads 5, is still running after 3 rounds and returns
    after 4. *)
Theorem C1_mock_sequences :
  detect [5; 5; 5] 0 initial = Polling 3 (mk_state 5 5 2) /\
  detect [5; 5; 5; 5] 0 initial = Stable 4 5 /\
  detect [5; 6; 6; 6] 0 initial = Polling 4 (mk_state 6 6 2) /\
  detect [5; 6; 6; 6; 6] 0 initial = Stable 5 6 /\
  (let w := Sample.page (fun _ => 5) [] (fun _ _ => Sample.without_link) in
   (load_participants 3 w 0 initial fresh).1 = Running /\
   (load_participants 4 w 0 initial fresh).1 = Val (mk_state 5 5 3)).
Proof. vm_compute. repeat split. Qed.

Lemma attempts_step count s :
  0 <= attempts s -> 0 <= attempts (loop_round count s) <= attempts s + 1.
Proof. intros H. unfold loop_round. simpl. destruct (_ =? _); lia. Qed.

Lemma attempts_after_nonneg reads : forall s, 0 <= attempts s -> 0 <= attempts (after reads s).
Proof.
  induction reads as [|count rest IH]; intros s Hs; [done |].
  apply IH. by apply attempts_step.
Qed.

(** C2: the loop starts from [last_participant_count = 0] and
    [attempts = 0]; a round that reads [count] sets
    [last_participant_count] to [count] and adds one to [attempts] when
    [count] equals the previous [last_participant_count], and otherwise
    resets [attempts] to 0; the loop stops after [n] rounds exactly when
    [attempts] is 3 after round [n] and was below 3 after every earlier
    round; and the loop of the script, against a page driver that
    answers and scrolls without failing, returns that state. *)
Theorem C2_step_function :
  (last_participant_count initial = 0 /\ attempts initial = 0 /\ max_attempts = 3) /\
  (forall count s,
      last_participant_count (loop_round count s) = count /\
      (count = last_participant_count s -> attempts (loop_round count s) = attempts s + 1) /\
      (count <> last_participant_count s -> attempts (loop_round count s) = 0)) /\
  (forall reads n total,
      detect reads 0 initial = Stable n total <->
      (n <= length reads)%nat /\
      attempts (after (take n reads) initial) = 3 /\
      (forall j, (j < n)%nat -> attempts (after (take j reads) initial) < 3) /\
      total = current_participant_count (after (take n reads) initial)) /\
  (forall w signal fuel n total sys,
      follows w signal ->
      watch signal fuel = Stable n total ->
      (load_participants fuel w 0 initial sys).1 = Val (after (reads_of signal n) initial)).
Proof.
  split_and!; try done.
  - intros count s. unfold loop_round. simpl. split_and!; [done | |].
    + intros ->. by rewrite Z.eqb_refl.
    + intros Hne. apply Z.eqb_neq in Hne. by rewrite Hne.
  - intros reads n total. split.
    + intros Hd. apply detect_stable_inv in Hd as (m & Hm & -> & -> & Hs & Hg).
      simpl. split_and!; [done | | | done].
      * unfold continues, max_attempts in Hs. apply Z.ltb_ge in Hs.
        destruct m as [|m]; [simpl in Hs; lia |].
        assert (is_Some (reads !! m)) as [x Hx] by (apply lookup_lt_is_Some; lia).
        rewrite (take_S_r _ _ _ Hx), after_snoc in *.
        specialize (Hg m ltac:(lia)). unfold continues, max_attempts in Hg.
        apply Z.ltb_lt in Hg.
        pose proof (attempts_step x (after (take m reads) initial)
                      (attempts_after_nonneg (take m reads) initial ltac:(unfold initial; simpl; lia))). lia.
      * intros j Hj. specialize (Hg j Hj). unfold continues, max_attempts in Hg.
        by apply Z.ltb_lt in Hg.
    + intros (Hn & H3 & Hlt & ->).
      rewrite (detect_stable_intro reads 0 initial n); [done | done | |].
      * unfold continues, max_attempts. apply Z.ltb_ge. lia.
      * intros j Hj. unfold continues, max_attempts. apply Z.ltb_lt. by apply Hlt.
  - intros w signal fuel n total sys Hw Hd.
    pose proof (load_participants_detect w signal Hw fuel 0%nat initial sys) as H.
    unfold watch, reads_of in Hd. rewrite Hd in H.
    destruct H as (s' & -> & _ & ->). f_equal. f_equal.
    apply watch_stable_iff in Hd as (Hn & _).
    rewrite Nat.sub_0_r. by apply take_reads_of.
Qed.

(** C2 on a page whose guest count always reads 5: the loop of the
    script returns after four rounds with [attempts = 3]. *)
Lemma C2_step_function_witness :
  (load_participants 10 (Sample.page (fun _ => 5) [] (fun _ _ => Sample.without_link))
     0 initial fresh).1 = Val (mk_state 5 5 3).
Proof.
  refine (proj2 (proj2 (proj2 C2_step_function))
            (Sample.page (fun _ => 5) [] (fun _ _ => Sample.without_link))
            (fun _ => 5) 10%nat 4%nat 5 fresh _ eq_refl).
  split; intros k; reflexivity.
Defined.

(** The first round boundary at which the streak reaches three. *)
Lemma first_streak signal n :
  (3 <= streak signal n)%nat ->
  exists m, (m <= n)%nat /\ (3 <= streak signal m)%nat /\
            forall j, (j < m)%nat -> (streak signal j < 3)%nat.
Proof.
  intros H3.
  assert (forall b,
    (exists m, (m < b)%nat /\ (3 <= streak signal m)%nat /\
               forall j, (j < m)%nat -> (streak signal j < 3)%nat)
    \/ (forall j, (j < b)%nat -> (streak signal j < 3)%nat)) as Hsearch.
  { induction b as [|b [(m & Hm & Hs & Hg) | Hall]].
    - right. intros j Hj. lia.
    - left. exists m. split; [lia | done].
    - destruct (decide (streak signal b < 3)%nat) as [Hb|Hb].
      + right. intros j Hj. destruct (decide (j = b)) as [->|]; [done | apply Hall; lia].
      + left. exists b. split_and!; [lia | lia | done]. }
  destruct (Hsearch (S n)) as [(m & Hm & Hs & Hg) | Hall].
  - exists m. split; [lia | done].
  - specialize (Hall n ltac:(lia)). lia.
Qed.

Lemma no_streak_polling signal :
  (forall n, (streak signal n < 3)%nat) -> diverges signal.
Proof. intros H n. apply watch_polling_iff. intros j _. apply H. Qed.

Lemma increasing_changes signal k :
  (forall j, signal j < signal (j + 1)%nat) -> unchanged signal (S k) = false.
Proof.
  intros Hinc. unfold unchanged. simpl. apply Z.eqb_neq.
  specialize (Hinc k). replace (k + 1)%nat with (S k) in Hinc by lia. lia.
Qed.

(** C3: the loop has no bound on its rounds. It terminates if and only
    if three consecutive rounds each read the count of the round before
    (the first round compares with the initial
    [last_participant_count]); on a signal with no such three rounds,
    for instance a strictly increasing one, it is still polling after
    any number of rounds, and the loop of the script is still running
    whatever number of rounds it is given. *)
Theorem C3_unbounded_loop (signal : nat -> Z) :
  (terminates signal <->
   exists k, unchanged signal k = true /\ unchanged signal (k + 1) = true /\
             unchanged signal (k + 2) = true) /\
  ((forall k, ~ (unchanged signal k = true /\ unchanged signal (k + 1) = true /\
                 unchanged signal (k + 2) = true)) ->
   diverges signal /\ ~ terminates signal /\
   forall w fuel sys, follows w signal ->
     (load_participants fuel w 0 initial sys).1 = Running) /\
  ((forall k, signal k < signal (k + 1)%nat) -> diverges signal).
Proof.
  assert (terminates signal ->
          exists k, unchanged signal k = true /\ unchanged signal (k + 1) = true /\
                    unchanged signal (k + 2) = true) as Hstop.
  { intros (n & rounds & total & Hw).
    apply watch_stable_iff in Hw as (_ & H3 & _).
    apply streak_three in H3 as (k & _ & H). by exists k. }
  assert ((forall k, ~ (unchanged signal k = true /\ unchanged signal (k + 1) = true /\
                        unchanged signal (k + 2) = true)) ->
          forall n, (streak signal n < 3)%nat) as Hnever.
  { intros Hno n. destruct (decide (streak signal n < 3)%nat) as [|Hge]; [done |].
    apply Nat.nlt_ge, streak_three in Hge as (k & _ & H). by destruct (Hno k). }
  split_and!.
  - split; [exact Hstop |].
    intros (k & H0 & H1 & H2).
    pose proof (three_streak signal k H0 H1 H2) as H3.
    (* the first boundary at which the streak is three *)
    assert (exists m, (m <= k + 3)%nat /\ (3 <= streak signal m)%nat /\
                      forall j, (j < m)%nat -> (streak signal j < 3)%nat) as (m & Hm & Hs & Hg).
    { destruct (first_streak signal (k + 3) H3) as (m & ? & ? & ?). by exists m. }
    exists m, m, (previous signal m). by apply watch_stable_iff.
  - intros Hno. pose proof (Hnever Hno) as Hlt. split_and!.
    + by apply no_streak_polling.
    + intros Ht. apply Hstop in Ht as (k & Hk). by destruct (Hno k).
    + intros w fuel sys Hw.
      pose proof (load_participants_detect w signal Hw fuel 0%nat initial sys) as H.
      destruct (no_streak_polling signal Hlt fuel) as (s & Hp).
      unfold watch, reads_of in Hp. by rewrite Hp in H.
  - intros Hinc. apply no_streak_polling, Hnever.
    intros k (_ & H1 & _). replace (k + 1)%nat with (S k) in H1 by lia.
    by rewrite increasing_changes in H1.
Qed.

(** C3 at the signal 1, 2, 3, ...: strictly increasing, so never stable. *)
Lemma C3_unbounded_loop_witness :
  (forall k, Z.of_nat k + 1 < Z.of_nat (k + 1) + 1) /\
  diverges (fun k => Z.of_nat k + 1).
Proof.
  assert (forall k, Z.of_nat k + 1 < Z.of_nat (k + 1) + 1) as H by (intros k; lia).
  split; [exact H |].
  exact (proj2 (proj2 (C3_unbounded_loop (fun k => Z.of_nat k + 1))) H).
Defined.

End DetectorClaims.

(* ===================================================================== *)
(** ** The Export Pipeline *)
(* ===================================================================== *)

Section ExportClaims.
Import RunFacts ScraperFacts.
Local Open Scope list_scope.

(** C4: whatever the run does, if it leaves a CSV file, the file holds
    the header followed by data rows that each have a non-empty LinkedIn
    URL in the [linkedin] column and, in the six [custom_att] columns,
    the title, date, time, place and host read once from the event page
    and the tag ["Luma"]; so any two data rows agree on those six
    columns. *)
Theorem C4_export_invariant (fuel : nat) (w : World) (url : string) (s : Sys)
    (rows : list (list string)) :
  csv_file s = None ->
  csv_file (scrape_luma_event fuel w url s).2 = Some rows ->
  exists meta data,
    metadata_of w meta /\
    rows = fieldnames :: data /\
    Forall (exported_row meta) data /\
    (forall row, row ∈ data ->
       (exists linkedin, row !! 2%nat = Some linkedin /\ linkedin <> "") /\
       drop 3 row = [event_title meta; event_date meta; event_time meta;
                     event_place meta; event_host meta; "Luma"]) /\
    (forall row1 row2, row1 ∈ data -> row2 ∈ data -> drop 3 row1 = drop 3 row2).
Proof.
  intros Hnone Hrows. unfold scrape_luma_event in Hrows.
  rewrite handle_exceptions_csv in Hrows.
  destruct (scrape_body_csv fuel w url s) as [Hsame | (meta & data & Hmeta & Hdata & Hall)].
  { congruence. }
  rewrite Hdata in Hrows. injection Hrows as <-.
  assert (forall row, row ∈ data ->
    (exists linkedin, row !! 2%nat = Some linkedin /\ linkedin <> "") /\
    drop 3 row = [event_title meta; event_date meta; event_time meta;
                  event_place meta; event_host meta; "Luma"]) as Hcols.
  { intros row Hin. rewrite Forall_forall in Hall.
    destruct (Hall row Hin) as (f & l & v & Hv & ->). split; [by exists v | done]. }
  exists meta, data. split_and!; try done.
  intros row1 row2 H1 H2.
  destruct (Hcols row1 H1) as [_ ->]. by destruct (Hcols row2 H2) as [_ ->].
Qed.

(** C4 on the sample page: one guest is exported. *)
Lemma C4_export_invariant_witness :
  exists meta data,
    metadata_of Sample.demo meta /\
    [fieldnames;
     ["Jane"; "Doe"; "https://linkedin.com/in/jane"; "AI for Developers";
      "Thursday, May 22"; "6:00 PM - 8:00 PM"; "Shack15, San Francisco, California";
      "GitAuto"; "Luma"]] = fieldnames :: data /\
    Forall (exported_row meta) data /\
    (forall row, row ∈ data ->
       (exists linkedin, row !! 2%nat = Some linkedin /\ linkedin <> "") /\
       drop 3 row = [event_title meta; event_date meta; event_time meta;
                     event_place meta; event_host meta; "Luma"]) /\
    (forall row1 row2, row1 ∈ data -> row2 ∈ data -> drop 3 row1 = drop 3 row2).
Proof.
  apply (C4_export_invariant 10 Sample.demo Sample.event_url fresh).
  - reflexivity.
  - vm_compute. reflexivity.
Defined.

End ExportClaims.

(* ===================================================================== *)
(** ** The Record Extractor *)
(* ===================================================================== *)

Section ExtractorClaims.
Import RunFacts ScraperFacts PyStrFacts.
Local Open Scope list_scope.

(** C5: an entry whose name text contains ["@"] produces no candidate:
    the candidates collected so far are returned unchanged, a line is
    printed, and neither the name is split nor the link read (the
    result does not depend on [href]); the loop goes on with the next
    entry. *)
Theorem C5_email_name_skipped (w : World) (element : Entry) (before after : string)
    (participants : list (gmap string string)) (s : Sys) :
  name_text element = Val (before ++ String "@" after)%string ->
  let s' := mk_sys (stdout s ++ ("Skipping email-like name: " ++ before ++ String "@" after)
                      ++ newline)%string
                   (session_file s) (csv_file s) in
  extract_entry w element participants s = (Val participants, s') /\
  forall rest, extract_all w (element :: rest) participants s = extract_all w rest participants s'.
Proof.
  intros Hname s'.
  assert (extract_entry w element participants s = (Val participants, s')) as H.
  { unfold extract_entry, mbind, M_bind, ask. rewrite Hname.
    by rewrite contains_char_app. }
  split; [done |].
  intros rest. simpl. by rewrite (bind_val _ _ _ _ _ H).
Qed.

(** C5 for the name ["user@example.com"]. *)
Lemma C5_email_name_skipped_witness :
  extract_entry Sample.demo (Sample.guest "user@example.com" "/user/usr-2") [] fresh =
  (Val [], mk_sys ("Skipping email-like name: user@example.com" ++ newline)%string false None).
Proof.
  exact (proj1 (C5_email_name_skipped Sample.demo (Sample.guest "user@example.com" "/user/usr-2")
                  "user" "example.com" [] fresh eq_refl)).
Defined.



Lemma candidate_profile_url first_name last_name url :
  candidate first_name last_name url !! "profile_url" = Some url.
Proof. done. Qed.

(** C9: a candidate is only ever produced from an entry whose [href] is
    present and not empty, and its [profile_url] is ["https://lu.ma"]
    followed by that [href]; an entry with such an [href] and a usable
    name does produce it; an entry whose [href] is absent or empty
    produces none (with a usable name it is skipped with a message). *)
Theorem C9_profile_url (w : World) (element : Entry) (participants : list (gmap string string)) (s : Sys) :
  (forall ps s',
     extract_entry w element participants s = (Val ps, s') ->
     ps = participants \/
     exists first_name last_name h,
       href element = Val (Some h) /\ h <> "" /\
       ps = participants ++ [candidate first_name last_name ("https://lu.ma" ++ h)%string] /\
       candidate first_name last_name ("https://lu.ma" ++ h)%string !! "profile_url"
       = Some ("https://lu.ma" ++ h)%string) /\
  (forall full_name h,
     name_text element = Val full_name ->
     contains_char "@" full_name = false ->
     blank full_name = false ->
     href element = Val (Some h) -> h <> "" ->
     exists first_name last_name,
       extract_entry w element participants s =
       (Val (participants ++ [candidate first_name last_name ("https://lu.ma" ++ h)%string]), s)) /\
  (href element = Val None \/ href element = Val (Some "") ->
   (forall ps s', extract_entry w element participants s = (Val ps, s') -> ps = participants) /\
   (forall full_name,
      name_text element = Val full_name ->
      contains_char "@" full_name = false ->
      blank full_name = false ->
      extract_entry w element participants s =
      (Val participants,
       mk_sys (stdout s ++ ("No profile URL found for " ++ full_name ++ ", skipping")
                 ++ newline)%string
              (session_file s) (csv_file s)))).
Proof.
  assert (forall full_name, blank full_name = false ->
            exists first_part others, split_maxsplit1 full_name = first_part :: others) as Hparts.
  { intros full_name Hblank. destruct (split_maxsplit1 full_name) as [|x l] eqn:Hs.
    - apply split_maxsplit1_nil in Hs. congruence.
    - by exists x, l. }
  split_and!.
  - intros ps s' H.
    destruct (extract_entry_returns w element participants _ _ _ H)
      as [-> | (f & l & h & Hh & Hne & ->)]; [by left | right].
    exists f, l, h. split_and!; try done.
  - intros full_name h Hname Hat Hblank Hhref Hh.
    destruct (Hparts full_name Hblank) as (first_part & others & Hsplit).
    eexists _, _.
    exact (extract_entry_candidate w element full_name h participants s Hname Hat Hhref Hh
             first_part others Hsplit).
  - intros Hhref. split.
    + intros ps s' H.
      destruct (extract_entry_returns w element participants _ _ _ H)
        as [-> | (f & l & h & Hh & Hne & ->)]; [done |].
      destruct Hhref as [Hhref | Hhref]; rewrite Hhref in Hh; congruence.
    + intros full_name Hname Hat Hblank.
      destruct (Hparts full_name Hblank) as (first_part & others & Hsplit).
      unfold extract_entry, mbind, M_bind, ask. rewrite Hname, Hat, Hsplit.
      destruct Hhref as [-> | ->]; by destruct others.
Qed.

(** C9 for an entry whose link is ["/user/usr-1"], and for one without. *)
Lemma C9_profile_url_witness :
  (exists first_name last_name,
     extract_entry Sample.demo (Sample.guest "Jane Doe" "/user/usr-1") [] fresh =
     (Val [candidate first_name last_name "https://lu.ma/user/usr-1"], fresh)) /\
  extract_entry Sample.demo (mk_entry (Val "Jane Doe") (Val None)) [] fresh =
  (Val [], mk_sys ("No profile URL found for Jane Doe, skipping" ++ newline)%string false None).
Proof.
  split.
  - refine (proj1 (proj2 (C9_profile_url Sample.demo (Sample.guest "Jane Doe" "/user/usr-1") [] fresh))
              "Jane Doe" "/user/usr-1" eq_refl eq_refl eq_refl eq_refl _).
    discriminate.
  - exact (proj2 (proj2 (proj2 (C9_profile_url Sample.demo (mk_entry (Val "Jane Doe") (Val None)) [] fresh))
                   (or_introl eq_refl)) "Jane Doe" eq_refl eq_refl eq_refl).
Defined.

(** The guard turns an [Exception] of the body into a printed line and [None]. *)
Lemma scrape_luma_event_caught fuel w url s e s' :
  scrape_body fuel w url s = (Exn e, s') ->
  is_Exception (exn_class e) = true ->
  scrape_luma_event fuel w url s =
  (Val None, mk_sys (stdout s' ++ ("An error occurred: " ++ exn_str e) ++ newline)%string
                    (session_file s') (csv_file s')).
Proof.
  intros Hbody Hcls. unfold scrape_luma_event, handle_exceptions.
  by rewrite Hbody, Hcls.
Qed.

(** C10: an entry whose name text is empty or all whitespace (of any
    kind that [str.split] skips; for ASCII whitespace see
    [ascii_blank]) is not skipped: [split] returns the empty list and
    [name_parts[0]] raises
    [IndexError]; the elements after it are not looked at; and a run
    that reaches such an entry ends in the guard, which prints the
    error and returns [None], without a CSV file being written. *)
Theorem C10_blank_name_aborts (element : Entry) (full_name : string) :
  name_text element = Val full_name ->
  blank full_name = true ->
  contains_char "@" full_name = false /\
  split_maxsplit1 full_name = [] /\
  (forall w participants s,
     extract_entry w element participants s = (Exn index_out_of_range, s)) /\
  (forall w before after participants ps s s1,
     extract_all w before participants s = (Val ps, s1) ->
     extract_all w (before ++ element :: after) participants s = (Exn index_out_of_range, s1)) /\
  (forall fuel w url s meta before after ps s1 s2,
     render fuel w url s = (Val (meta, before ++ element :: after), s1) ->
     extract_all w before [] s1 = (Val ps, s2) ->
     scrape_luma_event fuel w url s =
     (Val None,
      mk_sys (stdout s2 ++ "An error occurred: list index out of range" ++ newline)%string
             (session_file s2) (csv_file s2)) /\
     csv_file (scrape_luma_event fuel w url s).2 = csv_file s).
Proof.
  intros Hname Hblank.
  assert (forall w before after participants ps s s1,
     extract_all w before participants s = (Val ps, s1) ->
     extract_all w (before ++ element :: after) participants s = (Exn index_out_of_range, s1))
    as Hall.
  { intros w before after participants ps s s1 Hbefore.
    rewrite extract_all_app, (bind_val _ _ _ _ _ Hbefore). simpl.
    apply bind_exn. by apply (extract_entry_blank w element full_name). }
  split_and!.
  - by apply blank_no_at.
  - by apply split_maxsplit1_blank.
  - intros w participants s. by apply (extract_entry_blank w element full_name).
  - exact Hall.
  - intros fuel w url s meta before after ps s1 s2 Hrender Hbefore.
    assert (scrape_body fuel w url s = (Exn index_out_of_range, s2)) as Hbody.
    { unfold scrape_body. apply bind_exn. unfold collect.
      rewrite (bind_val _ _ _ _ _ Hrender). simpl.
      apply bind_exn. by apply (Hall _ _ _ _ ps). }
    assert (csv_file s2 = csv_file s) as Hcsv.
    { pose proof (keeps_csv_render fuel w url s) as H1. rewrite Hrender in H1.
      pose proof (keeps_csv_extract_all w before [] s1) as H2. rewrite Hbefore in H2.
      simpl in *. congruence. }
    rewrite (scrape_luma_event_caught fuel w url s _ _ Hbody eq_refl). done.
Qed.

(** C10 on the sample page with a blank guest name: the run prints the
    error and returns [None]; no CSV file is written. *)
Lemma C10_blank_name_aborts_witness :
  (scrape_luma_event 10 Sample.blank_demo Sample.event_url fresh).1 = Val None /\
  csv_file (scrape_luma_event 10 Sample.blank_demo Sample.event_url fresh).2 = None.
Proof.
  destruct (C10_blank_name_aborts (Sample.guest "  " "/user/usr-2") "  " eq_refl eq_refl)
    as (_ & _ & _ & _ & Hrun).
  destruct (Hrun 10%nat Sample.blank_demo Sample.event_url fresh
              (mk_meta "AI for Developers" "Thursday, May 22" "6:00 PM - 8:00 PM"
                       "Shack15, San Francisco, California" "GitAuto")
              [Sample.guest "Jane Doe" "/user/usr-1"] []
              [candidate "Jane" "Doe" "https://lu.ma/user/usr-1"]
              (render 10 Sample.blank_demo Sample.event_url fresh).2
              (render 10 Sample.blank_demo Sample.event_url fresh).2) as [Hnone Hcsv].
  - vm_compute. reflexivity.
  - vm_compute. reflexivity.
  - split; [by rewrite Hnone | exact Hcsv].
Defined.

End ExtractorClaims.

(* ===================================================================== *)
(** ** The Profile Resolver *)
(* ===================================================================== *)

Section ResolverClaims.
Import RunFacts ScraperFacts.
Local Open Scope list_scope.

Lemma keep_resolved_app before after :
  keep_resolved (before ++ after) = keep_resolved before ++ keep_resolved after.
Proof. unfold keep_resolved. apply List.filter_app. Qed.

(** C7: for a candidate whose profile page has no LinkedIn link, or
    whose link has no [href] or an empty one, the resolver does not
    raise: it returns the candidate unchanged (no ["linkedin"] key),
    goes on with the next candidate, and line 233 drops the candidate,
    so that it is not exported. *)
Theorem C7_link_not_found (w : World) (i : nat) (first_name last_name profile_url : string)
    (s : Sys) :
  let participant := candidate first_name last_name profile_url in
  let page := profile_at w i profile_url in
  visit page = Val tt ->
  (link_count page = Val 0%Z \/
   exists n, link_count page = Val n /\ n <> 0%Z /\
             (link_href page = Val None \/ link_href page = Val (Some ""))) ->
  exists s',
    resolve w i participant s = (Val participant, s') /\
    csv_file s' = csv_file s /\
    participant !! "linkedin" = None /\
    (forall rest,
       resolve_all w i (participant :: rest) s =
       (rest' ← resolve_all w (S i) rest; mret (participant :: rest')) s') /\
    (forall before after,
       keep_resolved (before ++ participant :: after) =
       keep_resolved before ++ keep_resolved after) /\
    (forall participants, participant ∉ keep_resolved participants).
Proof.
  intros participant page Hvisit Hlink.
  assert (exists s', resolve w i participant s = (Val participant, s')) as (s' & Hres).
  { unfold resolve, getitem, mbind, M_bind, ask, print, mret, M_ret.
    change (participant !! "first_name") with (Some first_name).
    change (participant !! "last_name") with (Some last_name).
    change (participant !! "profile_url") with (Some profile_url).
    cbv beta iota zeta. fold page. rewrite Hvisit.
    destruct Hlink as [-> | (n & -> & Hn & Hhref)]; cbv beta iota zeta.
    - rewrite Z.eqb_refl. by eexists.
    - apply Z.eqb_neq in Hn. rewrite Hn.
      destruct Hhref as [-> | ->]; by eexists. }
  exists s'. split_and!.
  - done.
  - pose proof (keeps_csv_resolve w i participant s) as H. by rewrite Hres in H.
  - done.
  - intros rest. simpl. by rewrite (bind_val _ _ _ _ _ Hres).
  - intros before after. by rewrite keep_resolved_app.
  - intros participants Hin. unfold keep_resolved in Hin.
    apply list_elem_of_In, filter_In in Hin as [_ Hhas]. done.
Qed.

(** C7 on the sample page: the second candidate's profile has no link. *)
Lemma C7_link_not_found_witness :
  exists s',
    resolve Sample.demo 1 (candidate "Madonna" "" "https://lu.ma/user/usr-3") fresh =
      (Val (candidate "Madonna" "" "https://lu.ma/user/usr-3"), s') /\
    csv_file s' = csv_file fresh /\
    candidate "Madonna" "" "https://lu.ma/user/usr-3" !! "linkedin" = None /\
    (forall rest,
       resolve_all Sample.demo 1 (candidate "Madonna" "" "https://lu.ma/user/usr-3" :: rest) fresh =
       (rest' ← resolve_all Sample.demo 2 rest;
        mret (candidate "Madonna" "" "https://lu.ma/user/usr-3" :: rest')) s') /\
    (forall before after,
       keep_resolved (before ++ candidate "Madonna" "" "https://lu.ma/user/usr-3" :: after) =
       keep_resolved before ++ keep_resolved after) /\
    (forall participants,
       candidate "Madonna" "" "https://lu.ma/user/usr-3" ∉ keep_resolved participants).
Proof.
  exact (C7_link_not_found Sample.demo 1 "Madonna" "" "https://lu.ma/user/usr-3" fresh
           eq_refl (or_introl eq_refl)).
Defined.

End ResolverClaims.

(* ===================================================================== *)
(** ** The top-level guard *)
(* ===================================================================== *)

Section GuardClaims.
Import RunFacts ScraperFacts.

(** C8, as stated, fails: when the user interrupts the script at the
    prompt for the verification code, [KeyboardInterrupt] is raised
    inside the run; it is not an instance of [Exception], so the guard
    does not catch it: the decorated function raises it, prints no error
    line and does not return [None]. *)
Lemma C8_guard_counterexample :
  (scrape_body 0 Sample.interrupted Sample.event_url fresh).1
    = Exn (mk_exn KeyboardInterrupt "") /\
  (scrape_luma_event 0 Sample.interrupted Sample.event_url fresh).1
    = Exn (mk_exn KeyboardInterrupt "") /\
  (scrape_luma_event 0 Sample.interrupted Sample.event_url fresh).1 <> Val None /\
  stdout (scrape_luma_event 0 Sample.interrupted Sample.event_url fresh).2
    = stdout (scrape_body 0 Sample.interrupted Sample.event_url fresh).2.
Proof. vm_compute. split_and!; try reflexivity. discriminate. Qed.

(** C8, amended: an exception raised inside the run that is an instance
    of [Exception] is caught by the guard, which prints
    ["An error occurred: "] followed by its text on standard output and
    returns [None]; an exception that is not (such as
    [KeyboardInterrupt]) leaves the guard as it is; and when the
    exception is raised before the export step, the run leaves the CSV
    file as it found it. *)
Theorem C8_guard (fuel : nat) (w : World) (url : string) (s : Sys) (e : exn) (s' : Sys) :
  scrape_body fuel w url s = (Exn e, s') ->
  (is_Exception (exn_class e) = true ->
   scrape_luma_event fuel w url s =
   (Val None, mk_sys (stdout s' ++ ("An error occurred: " ++ exn_str e) ++ newline)%string
                     (session_file s') (csv_file s'))) /\
  (is_Exception (exn_class e) = false ->
   scrape_luma_event fuel w url s = (Exn e, s')) /\
  (collect fuel w url s = (Exn e, s') ->
   csv_file (scrape_luma_event fuel w url s).2 = csv_file s).
Proof.
  intros Hbody. split_and!.
  - by apply scrape_luma_event_caught.
  - intros Hcls. unfold scrape_luma_event, handle_exceptions. by rewrite Hbody, Hcls.
  - intros Hcollect. unfold scrape_luma_event. rewrite handle_exceptions_csv, Hbody.
    pose proof (keeps_csv_collect fuel w url s) as H. by rewrite Hcollect in H.
Qed.

(** C8 on the sample page with a blank guest name: [IndexError] is caught. *)
Lemma C8_guard_witness :
  (scrape_luma_event 10 Sample.blank_demo Sample.event_url fresh).1 = Val None /\
  csv_file (scrape_luma_event 10 Sample.blank_demo Sample.event_url fresh).2 = None.
Proof.
  destruct (C8_guard 10 Sample.blank_demo Sample.event_url fresh index_out_of_range
              (scrape_body 10 Sample.blank_demo Sample.event_url fresh).2)
    as (Hcaught & _ & Hcsv).
  - vm_compute. reflexivity.
  - split.
    + by rewrite (Hcaught eq_refl).
    + apply Hcsv. vm_compute. reflexivity.
Defined.

End GuardClaims.

(* ===================================================================== *)
(** ** Further properties of the loading loop *)
(* ===================================================================== *)

Section DetectorExtras.
Import Props DetectorFacts LoopFacts RunFacts.
Local Open Scope Z_scope.
Local Open Scope list_scope.

Lemma streak_step signal n : (streak signal (S n) <= S (streak signal n))%nat.
Proof. simpl. destruct (unchanged signal n); lia. Qed.

(** When the loop stops, it has run at least three rounds, it reports
    the count read in its last round, the last three rounds read that
    same count, and so did the round before them (for a loop that stops
    after exactly three rounds, that count is the initial 0). *)
Theorem detector_report (signal : nat -> Z) (n rounds : nat) (total : Z) :
  watch signal n = Stable rounds total ->
  (3 <= rounds)%nat /\
  total = signal (rounds - 1)%nat /\
  signal (rounds - 2)%nat = total /\
  signal (rounds - 3)%nat = total /\
  previous signal (rounds - 3) = total /\
  (rounds = 3%nat -> total = 0).
Proof.
  intros Hw. apply watch_stable_iff in Hw as (_ & H3 & _ & ->).
  apply streak_three in H3 as (k & -> & H0 & H1 & H2).
  unfold unchanged in *. apply Z.eqb_eq in H0, H1, H2.
  replace (k + 1)%nat with (S k) in * by lia.
  replace (k + 2)%nat with (S (S k)) in * by lia.
  replace (k + 3)%nat with (S (S (S k))) in * by lia.
  simpl in *. rewrite !Nat.sub_0_r.
  replace (S k - 1)%nat with k by lia.
  split_and!; try lia.
  intros Hk. assert (k = 0)%nat as -> by lia. simpl in H0. lia.
Qed.

(** [detector_report] on a guest count that always reads 5. *)
Lemma detector_report_witness :
  (3 <= 4)%nat /\ 5 = 5 /\ 5 = 5 /\ 5 = 5 /\ previous (fun _ => 5) (4 - 3) = 5 /\
  (4%nat = 3%nat -> 5 = 0).
Proof. exact (detector_report (fun _ => 5) 10 4 5 eq_refl). Defined.

Lemma load_participants_returns w fuel : forall round s sys st sys',
  0 <= attempts s <= 3 ->
  last_participant_count s = current_participant_count s ->
  load_participants fuel w round s sys = (Val st, sys') ->
  attempts st = 3 /\ last_participant_count st = current_participant_count st /\
  csv_file sys' = csv_file sys /\ session_file sys' = session_file sys /\
  (st = s \/ exists k, (round <= k)%nat /\ count_at w k = Val (current_participant_count st)).
Proof.
  induction fuel as [|fuel IH]; intros round s sys st sys' Hatt Hlast Hrun; simpl in Hrun.
  - unfold continues, max_attempts in Hrun.
    destruct (attempts s <? 3) eqn:Hc; [discriminate |].
    injection Hrun as <- <-. apply Z.ltb_ge in Hc. split_and!; try done; [lia | by left].
  - unfold continues, max_attempts in Hrun.
    destruct (attempts s <? 3) eqn:Hc.
    + apply Z.ltb_lt in Hc.
      unfold mbind, M_bind, ask, print in Hrun.
      destruct (count_at w round) as [count| |] eqn:Hcount; try discriminate.
      destruct (scroll_at w round) as [[]| |]; try discriminate.
      simpl in Hrun.
      apply IH in Hrun as (H3 & Hl & Hcsv & Hses & Hfrom).
      * split_and!; try done. right.
        destruct Hfrom as [-> | (k & Hk & Hcount')].
        -- exists round. split; [lia | done].
        -- exists k. split; [lia | done].
      * unfold loop_round. simpl. destruct (_ =? _); lia.
      * done.
    + injection Hrun as <- <-. apply Z.ltb_ge in Hc. split_and!; try done; [lia | by left].
Qed.

(** Whatever the page driver answers, when the loop of the script
    returns, [attempts] is exactly 3, [last_participant_count] equals
    [current_participant_count], that count is what the driver answered
    in some round, and neither file was touched. *)
Theorem loop_returns_stable (w : World) (fuel : nat) (sys sys' : Sys) (st : StabilizationState) :
  load_participants fuel w 0 initial sys = (Val st, sys') ->
  attempts st = 3 /\
  last_participant_count st = current_participant_count st /\
  (exists k, count_at w k = Val (current_participant_count st)) /\
  csv_file sys' = csv_file sys /\ session_file sys' = session_file sys.
Proof.
  intros Hrun.
  apply load_participants_returns in Hrun as (H3 & Hl & Hcsv & Hses & Hfrom);
    [| done | done].
  split_and!; try done.
  destruct Hfrom as [-> | (k & _ & Hk)]; [done | by exists k].
Qed.

(** [loop_returns_stable] on the sample page. *)
Lemma loop_returns_stable_witness :
  attempts (mk_state 3 3 3) = 3 /\
  last_participant_count (mk_state 3 3 3) = current_participant_count (mk_state 3 3 3) /\
  (exists k, count_at Sample.demo k = Val (current_participant_count (mk_state 3 3 3))) /\
  csv_file (load_participants 10 Sample.demo 0 initial fresh).2 = csv_file fresh /\
  session_file (load_participants 10 Sample.demo 0 initial fresh).2 = session_file fresh.
Proof.
  apply (loop_returns_stable Sample.demo 10 fresh). vm_compute. reflexivity.
Defined.

End DetectorExtras.

(* ===================================================================== *)
(** ** Runs against a page driver that never fails *)
(* ===================================================================== *)

Module EndFacts.
Import PyStr PyStrFacts Exc Run RunFacts Detector DetectorFacts Scraper LoopFacts ScraperFacts Props.
Local Open Scope list_scope.

Section EndsWith.
Context {A B : Type} (E : exn -> Prop).

Lemma ends_with_ret (Q : A -> Prop) (a : A) : Q a -> ends_with E Q (mret a).
Proof. by intros H s. Qed.

Lemma ends_with_bind (Q : A -> Prop) (R : B -> Prop) (m : M A) (f : A -> M B) :
  ends_with E Q m -> (forall a, Q a -> ends_with E R (f a)) -> ends_with E R (m ≫= f).
Proof.
  intros Hm Hf s. unfold mbind, M_bind. specialize (Hm s).
  destruct (m s) as [[a|e|] s1]; try done. by apply Hf.
Qed.

Lemma ends_with_ask (r : outcome A) :
  answered r -> ends_with E (fun a => r = Val a) (ask r).
Proof. by intros [a ->] s. Qed.

Lemma ends_with_weaken (Q Q' : A -> Prop) (m : M A) :
  ends_with E Q m -> (forall a, Q a -> Q' a) -> ends_with E Q' m.
Proof.
  intros Hm HQ s. specialize (Hm s). destruct (m s) as [[a|e|] s1]; try done. by apply HQ.
Qed.

Lemma ends_with_getitem_list (l : list A) (i : nat) :
  E index_out_of_range \/ is_Some (l !! i) ->
  ends_with E (fun x => l !! i = Some x) (getitem_list l i).
Proof.
  intros H s. unfold getitem_list. destruct (l !! i) as [x|] eqn:Hx; simpl; [done |].
  destruct H as [H | [x Hx']]; [done | congruence].
Qed.

End EndsWith.

Lemma ends_with_print E text : ends_with E (fun _ => True) (print text).
Proof. by intros s. Qed.

Lemma ends_with_prompt E text : ends_with E (fun _ => True) (prompt text).
Proof. by intros s. Qed.

Lemma ends_with_getitem E (d : gmap string string) k :
  is_Some (d !! k) -> ends_with E (fun v => d !! k = Some v) (getitem d k).
Proof. intros [v Hv] s. unfold getitem. by rewrite Hv. Qed.

(** Steps whose value does not matter. *)
Ltac skip_ask H := eapply ends_with_bind; [apply ends_with_ask; apply H | intros ? _].
Ltac skip_print := eapply ends_with_bind; [apply ends_with_print | intros _ _].

Lemma ends_with_login E w url :
  calm w ->
  E index_out_of_range \/ is_Some (split_on "lu.ma/" url !! 1%nat) ->
  ends_with E (fun _ => True) (login w url).
Proof.
  intros (_ & Hlogin & Hsubmit & Hcode & Henter & Hsave & _) Hurl. unfold login.
  skip_print.
  eapply ends_with_bind; [by apply ends_with_getitem_list | intros next _].
  skip_ask Hlogin. skip_print. skip_ask Hsubmit. skip_print.
  eapply ends_with_bind; [apply ends_with_prompt | intros _ _].
  eapply ends_with_bind; [apply ends_with_ask, Hcode | intros code _].
  skip_ask Henter. skip_print. skip_ask Hsave.
  by intros s.
Qed.

Lemma ends_with_read_metadata E w :
  calm w -> ends_with E (fun _ => True) (read_metadata w).
Proof.
  intros (_ & _ & _ & _ & _ & _ & _ & _ & Htitle & Hdate & Htime & Hn & Hit & Hid & Hvt & Hhost & _).
  unfold read_metadata.
  skip_ask Htitle. skip_ask Hdate. skip_ask Htime. do 3 skip_print.
  eapply ends_with_bind; [apply ends_with_ask, Hn | intros n _].
  eapply (ends_with_bind _ (fun _ => True)).
  { destruct (0 <? n)%Z.
    - skip_ask Hit. skip_ask Hid. by apply ends_with_ret.
    - eapply ends_with_weaken; [apply ends_with_ask, Hvt | done]. }
  intros place _. skip_print. skip_ask Hhost. skip_print. by apply ends_with_ret.
Qed.

Lemma ends_with_open_guest_list E w :
  calm w -> ends_with E (fun _ => True) (open_guest_list w).
Proof.
  intros (_ & _ & _ & _ & _ & _ & _ & _ & _ & _ & _ & _ & _ & _ & _ & _ &
          Hguests & Hmodal & Hhtml & _).
  unfold open_guest_list.
  skip_ask Hguests. skip_print. skip_ask Hmodal. skip_print. skip_ask Hhtml.
  apply ends_with_print.
Qed.

Lemma ends_with_setup E w url :
  calm w ->
  E index_out_of_range \/ session_exists w = true \/ is_Some (split_on "lu.ma/" url !! 1%nat) ->
  ends_with E (fun _ => True) (setup w url).
Proof.
  intros Hcalm Hurl.
  pose proof Hcalm as (Hlaunch & _ & _ & _ & _ & _ & Hpause & Hevent & _).
  unfold setup. skip_ask Hlaunch.
  eapply (ends_with_bind _ (fun _ => True)).
  { destruct (session_exists w) eqn:Hs; [by apply ends_with_ret |].
    apply ends_with_login; [done |]. destruct Hurl as [? | [? | ?]]; auto. done. }
  intros _ _. skip_ask Hpause. skip_print. skip_ask Hevent. skip_print.
  eapply ends_with_bind; [by apply ends_with_read_metadata | intros meta _].
  eapply ends_with_bind; [by apply ends_with_open_guest_list | intros _ _].
  by apply ends_with_ret.
Qed.

Lemma ends_with_load_participants E w signal fuel rounds total :
  follows w signal ->
  watch signal fuel = Stable rounds total ->
  ends_with E (fun st => current_participant_count st = total)
    (load_participants fuel w 0 initial).
Proof.
  intros Hw Hstable s.
  pose proof (load_participants_detect w signal Hw fuel 0%nat initial s) as H.
  unfold watch, reads_of in Hstable. rewrite Hstable in H.
  destruct H as (st & Hrun & Htotal & _).
  destruct (load_participants fuel w 0 initial s) as [[st'|e|] s1]; simpl in Hrun; try done.
  by injection Hrun as ->.
Qed.

Lemma has_name_keys_candidate first_name last_name url :
  has_name_keys (candidate first_name last_name url).
Proof. unfold has_name_keys, candidate. split_and!; by eexists. Qed.

Lemma has_name_keys_linkedin p v : has_name_keys p -> has_name_keys (<["linkedin" := v]> p).
Proof.
  intros (H1 & H2 & H3). unfold has_name_keys.
  by rewrite !lookup_insert_ne by done.
Qed.

Lemma ends_with_extract_entry E w element participants :
  answered (name_text element) -> answered (href element) ->
  (E index_out_of_range \/
   forall full_name, name_text element = Val full_name -> blank full_name = false) ->
  Forall has_name_keys participants ->
  ends_with E (Forall has_name_keys) (extract_entry w element participants).
Proof.
  intros [full_name Hname] [profile_url Hhref] Hblank Hkeys s.
  unfold extract_entry, mbind, M_bind, ask, print, mret, M_ret, getitem_list, raise.
  rewrite Hname, Hhref.
  destruct (contains_char "@" full_name); [done |].
  destruct (split_maxsplit1 full_name) as [|first_part others] eqn:Hsplit; simpl.
  - destruct Hblank as [HE | Hnb]; [done |].
    apply split_maxsplit1_nil in Hsplit. specialize (Hnb _ Hname). congruence.
  - assert (forall last_name,
              Forall has_name_keys
                (participants ++ [candidate (capitalize (unicode w) first_part) last_name
                                    ("https://lu.ma" ++ default "" profile_url)%string])) as Hadd.
    { intros last_name. apply Forall_app. split; [done |].
      apply Forall_singleton, has_name_keys_candidate. }
    destruct others as [|second_part others]; simpl;
      destruct profile_url as [[|c h]|]; simpl; try done; apply Hadd.
Qed.

Lemma ends_with_extract_all E w elements : forall participants,
  Forall (fun element => answered (name_text element) /\ answered (href element)) elements ->
  E index_out_of_range \/ no_blank_name elements ->
  Forall has_name_keys participants ->
  ends_with E (Forall has_name_keys) (extract_all w elements participants).
Proof.
  induction elements as [|element rest IH]; intros participants Hans Hblank Hkeys; simpl.
  - by apply ends_with_ret.
  - apply Forall_cons in Hans as [[Hn Hh] Hrest].
    eapply ends_with_bind.
    + apply ends_with_extract_entry; try done.
      destruct Hblank as [? | Hnb]; [by left | right].
      by apply Forall_cons in Hnb as [? _].
    + intros ps Hps. apply IH; try done.
      destruct Hblank as [? | Hnb]; [by left | right].
      by apply Forall_cons in Hnb as [_ ?].
Qed.

Lemma ends_with_resolve E w i participant :
  calm w -> has_name_keys participant ->
  ends_with E has_name_keys (resolve w i participant).
Proof.
  intros Hcalm Hkeys s.
  pose proof Hkeys as ([first_name Hf] & [last_name Hl] & [url Hu]).
  destruct Hcalm as (_ & _ & _ & _ & _ & _ & _ & _ & _ & _ & _ & _ & _ & _ & _ & _ &
                     _ & _ & _ & _ & _ & _ & Hpage & _).
  destruct (Hpage i url) as ([[] Hvisit] & [n Hn] & [h Hh]).
  unfold resolve, getitem, mbind, M_bind, ask, print, mret, M_ret.
  rewrite Hf, Hl, Hu. cbv beta iota zeta. rewrite Hvisit, Hn.
  cbv beta iota zeta.
  destruct (n =? 0)%Z; [exact Hkeys |].
  rewrite Hh. cbv beta iota zeta.
  destruct (truthy h); cbv beta iota zeta.
  - by apply has_name_keys_linkedin.
  - exact Hkeys.
Qed.

Lemma ends_with_resolve_all E w participants : forall i,
  calm w -> Forall has_name_keys participants ->
  ends_with E (Forall has_name_keys) (resolve_all w i participants).
Proof.
  induction participants as [|participant rest IH]; intros i Hcalm Hkeys; simpl.
  - by apply ends_with_ret.
  - apply Forall_cons in Hkeys as [Hp Hrest].
    eapply ends_with_bind; [by apply ends_with_resolve | intros p' Hp'].
    eapply ends_with_bind; [by apply IH | intros rest' Hrest'].
    apply ends_with_ret. by constructor.
Qed.

Lemma keep_resolved_keys participants :
  Forall has_name_keys participants ->
  Forall (fun p => has_name_keys p /\ is_Some (p !! "linkedin")) (keep_resolved participants).
Proof.
  intros Hkeys. unfold keep_resolved. apply Forall_forall. intros p Hp.
  apply list_elem_of_In, filter_In in Hp as [Hin Hhas]. split.
  - rewrite Forall_forall in Hkeys. apply Hkeys. by apply list_elem_of_In.
  - unfold has_linkedin in Hhas. by destruct (p !! "linkedin").
Qed.

(** With its keys present, a participant is written as its row. *)
Lemma write_rows_rows meta participants : forall s acc,
  Forall (fun p => has_name_keys p /\ is_Some (p !! "linkedin")) participants ->
  csv_file s = Some acc ->
  write_rows meta participants s =
  (Val tt, mk_sys (stdout s) (session_file s) (Some (acc ++ map (row_of meta) participants))).
Proof.
  induction participants as [|p rest IH]; intros s acc Hkeys Hcsv; simpl.
  - unfold mret, M_ret. rewrite app_nil_r, <- Hcsv. by destruct s.
  - apply Forall_cons in Hkeys as [[([f Hf] & [l Hl] & _) [v Hv]] Hrest].
    unfold participant_data, getitem, writerow, append_row, mbind, M_bind, mret, M_ret.
    rewrite Hf, Hl, Hv. cbv beta iota zeta.
    erewrite IH; [| done | simpl; by rewrite Hcsv].
    simpl. unfold row_of. rewrite Hf, Hl, Hv. simpl.
    by rewrite <- app_assoc.
Qed.

Lemma string_app_assoc (a b c : string) : ((a ++ b) ++ c = a ++ b ++ c)%string.
Proof.
  induction a as [|x a IH]; [done |].
  change (String x ((a ++ b) ++ c) = String x (a ++ b ++ c))%string. by rewrite IH.
Qed.

Lemma export_result w downloads_path meta participants s :
  open_csv w = Val tt ->
  Forall (fun p => has_name_keys p /\ is_Some (p !! "linkedin")) participants ->
  export w downloads_path meta participants s =
  (Val tt,
   mk_sys (stdout s ++ (newline ++ "Saving to CSV in " ++ downloads_path) ++ newline
             ++ ("CSV file saved to: " ++ downloads_path ++ "/luma_participants.csv")
             ++ newline)%string
          (session_file s)
          (Some (fieldnames :: map (row_of meta) participants))).
Proof.
  intros Hopen Hkeys.
  unfold export, mbind, M_bind, print, ask, create_csv, append_row.
  rewrite Hopen. cbv beta iota zeta.
  erewrite write_rows_rows; [| done | reflexivity].
  simpl. f_equal. f_equal.
  by rewrite !string_app_assoc.
Qed.

Lemma ends_with_collect E fuel w url signal rounds total :
  calm w -> follows w signal -> watch signal fuel = Stable rounds total ->
  E index_out_of_range \/
    ((session_exists w = true \/ is_Some (split_on "lu.ma/" url !! 1%nat)) /\
     forall elements, entries w = Val elements -> no_blank_name elements) ->
  ends_with E (fun c => Forall (fun p => has_name_keys p /\ is_Some (p !! "linkedin")) c.2)
    (collect fuel w url).
Proof.
  intros Hcalm Hw Hstable Hok.
  pose proof Hcalm as (_ & _ & _ & _ & _ & _ & _ & _ & _ & _ & _ & _ & _ & _ & _ & _ &
                       _ & _ & _ & _ & _ & (elements & Hentries & Hans) & _).
  unfold collect.
  eapply (ends_with_bind _ (fun r => r.2 = elements)).
  { unfold render.
    eapply ends_with_bind.
    { apply ends_with_setup; [done |]. destruct Hok as [? | [[? | ?] _]]; auto. }
    intros meta _.
    eapply ends_with_bind; [by eapply ends_with_load_participants | intros st _].
    skip_print.
    eapply ends_with_bind; [apply ends_with_ask; by eexists | intros els Hels].
    apply ends_with_ret. simpl. congruence. }
  intros [meta els] ->. simpl.
  eapply ends_with_bind.
  { apply ends_with_extract_all; [done | | done].
    destruct Hok as [? | [_ Hnb]]; [by left | right; by apply Hnb]. }
  intros ps Hps.
  eapply ends_with_bind; [by apply ends_with_resolve_all | intros ps' Hps'].
  do 2 skip_print.
  apply ends_with_ret. simpl. by apply keep_resolved_keys.
Qed.

Lemma ends_with_scrape_body E fuel w url signal rounds total :
  calm w -> follows w signal -> watch signal fuel = Stable rounds total ->
  E index_out_of_range \/
    ((session_exists w = true \/ is_Some (split_on "lu.ma/" url !! 1%nat)) /\
     forall elements, entries w = Val elements -> no_blank_name elements) ->
  ends_with E (fun _ => True) (scrape_body fuel w url).
Proof.
  intros Hcalm Hw Hstable Hok.
  pose proof Hcalm as (_ & _ & _ & _ & _ & _ & _ & _ & _ & _ & _ & _ & _ & _ & _ & _ &
                       _ & _ & _ & _ & _ & _ & _ & [[] Hopen] & Hclose).
  unfold scrape_body.
  eapply ends_with_bind; [by eapply ends_with_collect |].
  intros [meta ps] Hps. simpl in *.
  eapply (ends_with_bind _ (fun _ => True)).
  { intros s. by rewrite (export_result w _ meta ps s Hopen Hps). }
  intros _ _. eapply ends_with_weaken; [apply ends_with_ask; exact Hclose | done].
Qed.

End EndFacts.

(* ===================================================================== *)
(** ** Splitting the event URL *)
(* ===================================================================== *)

Module UrlFacts.
Import PyStr PyStrFacts Props.

Lemma append_cons c (a b : string) : (String c a ++ b)%string = String c (a ++ b)%string.
Proof. done. Qed.

Lemma append_assoc (a b c : string) : ((a ++ b) ++ c = a ++ b ++ c)%string.
Proof.
  induction a as [|x a IH]; [done |]. rewrite !append_cons. by rewrite IH.
Qed.

Lemma startswith_app sep tail : startswith sep (sep ++ tail)%string = true.
Proof.
  induction sep as [|x sep IH]; [done |]. rewrite append_cons. simpl.
  by rewrite Ascii.eqb_refl.
Qed.

Lemma split_on_aux_nonempty sep s : forall skip cur,
  exists x l, split_on_aux sep s skip cur = x :: l.
Proof.
  induction s as [|c s IH]; intros skip cur; simpl; [by eexists; eexists |].
  destruct skip as [|k]; [| apply IH].
  destruct (startswith sep (String c s)); [by eexists; eexists | apply IH].
Qed.

(** Without an occurrence of the separator there is one piece: the
    whole string. *)
Lemma split_on_aux_absent sep s : forall cur,
  occurs sep s = false -> split_on_aux sep s 0 cur = [(cur ++ s)%string].
Proof.
  induction s as [|c s IH]; intros cur Hocc.
  - simpl. by rewrite append_nil_r.
  - simpl in Hocc. apply orb_false_iff in Hocc as [Hstart Hrest].
    change (split_on_aux sep (String c s) 0 cur) with
      (if startswith sep (String c s)
       then cur :: split_on_aux sep s (String.length sep - 1) EmptyString
       else split_on_aux sep s 0 (cur ++ String c EmptyString)%string).
    rewrite Hstart, IH by done. by rewrite append_assoc.
Qed.

(** With an occurrence there are at least two pieces. *)
Lemma split_on_aux_occurs sep s : forall cur,
  sep <> "" -> occurs sep s = true ->
  exists x y l, split_on_aux sep s 0 cur = x :: y :: l.
Proof.
  induction s as [|c s IH]; intros cur Hsep Hocc.
  - simpl in Hocc. rewrite orb_false_r in Hocc. by destruct sep.
  - change (split_on_aux sep (String c s) 0 cur) with
      (if startswith sep (String c s)
       then cur :: split_on_aux sep s (String.length sep - 1) EmptyString
       else split_on_aux sep s 0 (cur ++ String c EmptyString)%string).
    simpl in Hocc. destruct (startswith sep (String c s)) eqn:Hstart.
    + destruct (split_on_aux_nonempty sep s (String.length sep - 1) "") as (y & l & ->).
      by exists cur, y, l.
    + simpl in Hocc. by apply IH.
Qed.

Lemma split_on_aux_skip sep p tail : forall cur,
  split_on_aux sep (p ++ tail)%string (String.length p) cur = split_on_aux sep tail 0 cur.
Proof.
  induction p as [|c p IH]; intros cur; [by destruct tail |].
  rewrite append_cons. simpl. apply IH.
Qed.

(** When the first occurrence of the separator comes right after [a],
    the first piece is [a] and the rest is the split of what follows. *)
Lemma split_on_aux_first sep a b : forall cur,
  sep <> "" -> early sep a (sep ++ b)%string = false ->
  split_on_aux sep (a ++ sep ++ b)%string 0 cur =
  (cur ++ a)%string :: split_on_aux sep b 0 "".
Proof.
  induction a as [|c a IH]; intros cur Hsep Hearly.
  - destruct sep as [|x sep]; [done |].
    change ("" ++ String x sep ++ b)%string with (String x (sep ++ b))%string.
    change (split_on_aux (String x sep) (String x (sep ++ b)) 0 cur) with
      (if startswith (String x sep) (String x (sep ++ b))
       then cur :: split_on_aux (String x sep) (sep ++ b)
                     (String.length (String x sep) - 1) EmptyString
       else split_on_aux (String x sep) (sep ++ b) 0 (cur ++ String x EmptyString)%string).
    rewrite <- append_cons, startswith_app.
    replace (String.length (String x sep) - 1)%nat with (String.length sep)
      by (simpl; lia).
    rewrite split_on_aux_skip. by rewrite append_nil_r.
  - simpl in Hearly. apply orb_false_iff in Hearly as [Hstart Hrest].
    rewrite append_cons in *.
    change (split_on_aux sep (String c (a ++ sep ++ b)) 0 cur) with
      (if startswith sep (String c (a ++ sep ++ b))
       then cur :: split_on_aux sep (a ++ sep ++ b) (String.length sep - 1) EmptyString
       else split_on_aux sep (a ++ sep ++ b) 0 (cur ++ String c EmptyString)%string).
    rewrite Hstart, IH by done. by rewrite append_assoc.
Qed.

End UrlFacts.

(* ===================================================================== *)
(** ** The session file *)
(* ===================================================================== *)

Module SessionFacts.
Import PyStr Exc Run RunFacts Detector Scraper Props.

Create HintDb ses.

Section KeepsSession.
Context {A B : Type}.

Lemma keeps_session_ret (a : A) : keeps_session (mret a).
Proof. by intros s. Qed.

Lemma keeps_session_bind (m : M A) (f : A -> M B) :
  keeps_session m -> (forall a, keeps_session (f a)) -> keeps_session (m ≫= f).
Proof.
  intros Hm Hf s. unfold mbind, M_bind. specialize (Hm s).
  destruct (m s) as [[a|e|] s1]; simpl in *; try done.
  by rewrite Hf.
Qed.

Lemma keeps_session_ask (r : outcome A) : keeps_session (ask r).
Proof. by intros s. Qed.

Lemma keeps_session_raise (e : exn) : keeps_session (@raise A e).
Proof. by intros s. Qed.

Lemma keeps_session_running : keeps_session (@running A).
Proof. by intros s. Qed.

(** What follows a step that keeps the session file does not decide it. *)
Lemma session_after_bind (m : M A) (f : A -> M B) s :
  (forall a, keeps_session (f a)) ->
  session_file ((m ≫= f) s).2 = session_file (m s).2.
Proof.
  intros Hf. unfold mbind, M_bind.
  destruct (m s) as [[a|e|] s1]; simpl; try done. apply Hf.
Qed.

End KeepsSession.

Lemma keeps_session_print text : keeps_session (print text).
Proof. by intros s. Qed.

Lemma keeps_session_prompt text : keeps_session (prompt text).
Proof. by intros s. Qed.

Lemma keeps_session_create_csv : keeps_session create_csv.
Proof. by intros s. Qed.

Lemma keeps_session_append_row row : keeps_session (append_row row).
Proof. by intros s. Qed.

#[export] Hint Resolve keeps_session_ret keeps_session_ask keeps_session_raise
  keeps_session_running keeps_session_print keeps_session_prompt
  keeps_session_create_csv keeps_session_append_row : ses.

Ltac ses_step :=
  first
    [ apply keeps_session_bind; [| intros ?]
    | solve [auto with ses]
    | match goal with
      | |- keeps_session (if ?b then _ else _) => destruct b
      | |- keeps_session (match ?x with _ => _ end) => destruct x
      end ].

Ltac ses_auto := repeat ses_step.

Lemma keeps_session_getitem_list {A} (l : list A) i : keeps_session (getitem_list l i).
Proof. unfold getitem_list. ses_auto. Qed.

Lemma keeps_session_getitem d k : keeps_session (getitem d k).
Proof. unfold getitem. ses_auto. Qed.

#[export] Hint Resolve keeps_session_getitem_list keeps_session_getitem : ses.

Lemma keeps_session_read_metadata w : keeps_session (read_metadata w).
Proof. unfold read_metadata. ses_auto. Qed.

Lemma keeps_session_open_guest_list w : keeps_session (open_guest_list w).
Proof. unfold open_guest_list. ses_auto. Qed.

Lemma keeps_session_load_participants fuel w : forall round s,
  keeps_session (load_participants fuel w round s).
Proof.
  induction fuel as [|fuel IH]; intros round s; simpl; destruct (continues s); ses_auto.
Qed.

Lemma keeps_session_extract_all w elements : forall participants,
  keeps_session (extract_all w elements participants).
Proof.
  induction elements as [|element rest IH]; intros participants; simpl; [ses_auto |].
  apply keeps_session_bind; [unfold extract_entry; ses_auto | intros ps; apply IH].
Qed.

Lemma keeps_session_resolve_all w participants : forall i,
  keeps_session (resolve_all w i participants).
Proof.
  induction participants as [|participant rest IH]; intros i; simpl; [ses_auto |].
  apply keeps_session_bind; [unfold resolve; ses_auto | intros p].
  apply keeps_session_bind; [apply IH | intros ps]. ses_auto.
Qed.

Lemma keeps_session_write_rows meta participants : keeps_session (write_rows meta participants).
Proof.
  induction participants as [|participant rest IH]; simpl; [ses_auto |].
  apply keeps_session_bind; [unfold participant_data; ses_auto | intros d].
  apply keeps_session_bind; [unfold writerow; ses_auto | intros _]. apply IH.
Qed.

#[export] Hint Resolve keeps_session_read_metadata keeps_session_open_guest_list
  keeps_session_load_participants keeps_session_extract_all keeps_session_resolve_all
  keeps_session_write_rows : ses.

Lemma keeps_session_export w downloads_path meta participants :
  keeps_session (export w downloads_path meta participants).
Proof. unfold export. ses_auto. Qed.

Lemma handle_exceptions_session {Args T} (func : Args -> M T) args s :
  session_file (handle_exceptions func args s).2 = session_file (func args s).2.
Proof.
  unfold handle_exceptions. destruct (func args s) as [[v|e|] s']; try done.
  by destruct (is_Exception (exn_class e)).
Qed.

(** After the login step, nothing in the run touches the session file. *)
Lemma session_file_after_setup fuel w url s :
  session_file (scrape_luma_event fuel w url s).2 = session_file (setup w url s).2.
Proof.
  unfold scrape_luma_event. rewrite handle_exceptions_session.
  unfold scrape_body. rewrite session_after_bind.
  2:{ intros c. apply keeps_session_bind; [apply keeps_session_export | intros _]. ses_auto. }
  unfold collect. rewrite session_after_bind by (intros r; ses_auto).
  unfold render. rewrite session_after_bind by (intros r; ses_auto).
  done.
Qed.

End SessionFacts.

(* ===================================================================== *)
(** ** Further properties of the run *)
(* ===================================================================== *)

Section RunExtras.
Import Props PyStrFacts RunFacts ScraperFacts DetectorFacts LoopFacts EndFacts UrlFacts SessionFacts.
Local Open Scope list_scope.

(** Against a page driver and file system that never fail, and a guest
    count that stabilizes within the rounds given, the run comes to an
    end without raising: it returns normally, or the guard returns
    [None] after an [IndexError] (never a [KeyError]). *)
Theorem calm_run_ends (fuel : nat) (w : World) (url : string) (s : Sys)
    (signal : nat -> Z) (rounds : nat) (total : Z) :
  calm w -> follows w signal -> watch signal fuel = Stable rounds total ->
  (scrape_luma_event fuel w url s).1 = Val (Some tt) \/
  ((scrape_luma_event fuel w url s).1 = Val None /\
   (scrape_body fuel w url s).1 = Exn index_out_of_range).
Proof.
  intros Hcalm Hw Hstable.
  pose proof (ends_with_scrape_body (fun e => e = index_out_of_range) fuel w url signal
                rounds total Hcalm Hw Hstable (or_introl eq_refl) s) as H.
  unfold scrape_luma_event, handle_exceptions.
  destruct (scrape_body fuel w url s) as [[[]|e|] s']; simpl in *; [by left | | done].
  subst e. by right.
Qed.

Lemma calm_page counts elements profile :
  Forall (fun element => answered (name_text element) /\ answered (href element)) elements ->
  (forall i u, answered (visit (profile i u)) /\ answered (link_count (profile i u)) /\
               answered (link_href (profile i u))) ->
  calm (Sample.page counts elements profile).
Proof.
  intros Helements Hprofile. unfold calm, Sample.page. simpl.
  split_and!; try (intros; by eexists); try done.
Qed.

Lemma calm_demo : calm Sample.demo.
Proof.
  apply calm_page.
  - repeat constructor; by eexists.
  - intros [|i] u; split_and!; by eexists.
Qed.

Lemma follows_page counts elements profile :
  follows (Sample.page counts elements profile) counts.
Proof. by split. Qed.

(** [calm_run_ends] on the sample page. *)
Lemma calm_run_ends_witness :
  (scrape_luma_event 10 Sample.demo Sample.event_url fresh).1 = Val (Some tt) \/
  ((scrape_luma_event 10 Sample.demo Sample.event_url fresh).1 = Val None /\
   (scrape_body 10 Sample.demo Sample.event_url fresh).1 = Exn index_out_of_range).
Proof.
  exact (calm_run_ends 10 Sample.demo Sample.event_url fresh (fun _ => 3%Z) 4 3%Z
           calm_demo (follows_page _ _ _) eq_refl).
Defined.

(** Against a page driver and file system that never fail, with a guest
    count that stabilizes, a session file (or an event URL containing
    ["lu.ma/"]) and no blank guest name, the run returns normally and
    the CSV file holds the header and one row per participant that
    reached the export step, in order. *)
Theorem calm_run_succeeds (fuel : nat) (w : World) (url : string) (s : Sys)
    (signal : nat -> Z) (rounds : nat) (total : Z) :
  calm w -> follows w signal -> watch signal fuel = Stable rounds total ->
  session_exists w = true \/ occurs "lu.ma/" url = true ->
  (forall elements, entries w = Val elements -> no_blank_name elements) ->
  (scrape_luma_event fuel w url s).1 = Val (Some tt) /\
  exists meta participants s1,
    collect fuel w url s = (Val (meta, participants), s1) /\
    metadata_of w meta /\
    Forall resolved participants /\
    csv_file (scrape_luma_event fuel w url s).2
    = Some (fieldnames :: map (row_of meta) participants).
Proof.
  intros Hcalm Hw Hstable Hurl Hnb.
  assert (False \/
    ((session_exists w = true \/ is_Some (split_on "lu.ma/" url !! 1%nat)) /\
     forall elements, entries w = Val elements -> no_blank_name elements)) as Hok.
  { right. split; [| done]. destruct Hurl as [? | Hocc]; [by left | right].
    destruct (split_on_aux_occurs "lu.ma/" url "" ltac:(done) Hocc) as (x & y & l & Hsplit).
    unfold split_on. rewrite Hsplit. by eexists. }
  pose proof (ends_with_collect (fun _ => False) fuel w url signal rounds total
                Hcalm Hw Hstable Hok s) as Hcollect.
  pose proof (collect_returns fuel w url s) as Hret.
  pose proof Hcalm as (_ & _ & _ & _ & _ & _ & _ & _ & _ & _ & _ & _ & _ & _ & _ & _ &
                       _ & _ & _ & _ & _ & _ & _ & [[] Hopen] & [[] Hclose]).
  unfold scrape_luma_event, handle_exceptions, scrape_body.
  destruct (collect fuel w url s) as [[[meta ps]|e|] s1] eqn:Hc; try done.
  destruct (Hret _ _ eq_refl) as [Hmeta Hres]. simpl in *.
  rewrite (bind_val _ _ _ _ _ Hc). simpl.
  unfold mbind, M_bind. rewrite (export_result w _ meta ps s1 Hopen Hcollect).
  rewrite Hclose. simpl. split; [done |].
  by exists meta, ps, s1.
Qed.

(** [calm_run_succeeds] on the sample page. *)
Lemma calm_run_succeeds_witness :
  (scrape_luma_event 10 Sample.demo Sample.event_url fresh).1 = Val (Some tt) /\
  exists meta participants s1,
    collect 10 Sample.demo Sample.event_url fresh = (Val (meta, participants), s1) /\
    metadata_of Sample.demo meta /\
    Forall resolved participants /\
    csv_file (scrape_luma_event 10 Sample.demo Sample.event_url fresh).2
    = Some (fieldnames :: map (row_of meta) participants).
Proof.
  refine (calm_run_succeeds 10 Sample.demo Sample.event_url fresh (fun _ => 3%Z) 4 3%Z
            calm_demo (follows_page _ _ _) eq_refl (or_introl eq_refl) _).
  intros elements [= <-]. repeat constructor; intros full_name [= <-]; reflexivity.
Defined.

(** Without a session file, an event URL that does not contain
    ["lu.ma/"] stops the run before any page is opened: line 60 raises
    [IndexError], the guard prints it and returns [None], and neither
    file is written. *)
Theorem login_needs_luma_url (fuel : nat) (w : World) (url : string) (s : Sys) :
  session_exists w = false ->
  launch w = Val tt ->
  occurs "lu.ma/" url = false ->
  scrape_luma_event fuel w url s =
  (Val None,
   printed "An error occurred: list index out of range"
     (printed "No session found, logging in" s)).
Proof.
  intros Hsession Hlaunch Hocc.
  assert (scrape_body fuel w url s
          = (Exn index_out_of_range, printed "No session found, logging in" s)) as Hbody.
  { unfold scrape_body. apply bind_exn. unfold collect. apply bind_exn.
    unfold render. apply bind_exn. unfold setup.
    unfold mbind at 1, M_bind at 1, ask at 1. rewrite Hlaunch.
    apply bind_exn. rewrite Hsession. unfold login.
    unfold mbind at 1, M_bind at 1, print at 1. apply bind_exn.
    unfold split_on. rewrite split_on_aux_absent by done. done. }
  by rewrite (scrape_luma_event_caught fuel w url s _ _ Hbody eq_refl).
Qed.

(** [login_needs_luma_url] for an event URL on another host. *)
Lemma login_needs_luma_url_witness :
  scrape_luma_event 0 Sample.interrupted "https://luma.com/ai-for-developers-22" fresh =
  (Val None,
   printed "An error occurred: list index out of range"
     (printed "No session found, logging in" fresh)).
Proof.
  exact (login_needs_luma_url 0 Sample.interrupted "https://luma.com/ai-for-developers-22"
           fresh eq_refl eq_refl eq_refl).
Defined.

(** For an event URL [a ++ "lu.ma/" ++ b] in which ["lu.ma/"] occurs
    first right after [a] and not again in [b], the sign-in page is
    opened with [next=b]: the URL splits into [a] and [b], and when the
    driver fails to open ["https://lu.ma/signin?next=" ++ b], that
    failure is what the login step raises. *)
Theorem login_redirect (w : World) (a b : string) (s : Sys) (e : exn) :
  early "lu.ma/" a ("lu.ma/" ++ b)%string = false ->
  occurs "lu.ma/" b = false ->
  open_login w ("https://lu.ma/signin?next=" ++ b)%string = Exn e ->
  split_on "lu.ma/" (a ++ "lu.ma/" ++ b)%string = [a; b] /\
  login w (a ++ "lu.ma/" ++ b)%string s = (Exn e, printed "No session found, logging in" s).
Proof.
  intros Hearly Hocc Hopen.
  assert (split_on "lu.ma/" (a ++ "lu.ma/" ++ b)%string = [a; b]) as Hsplit.
  { unfold split_on. rewrite split_on_aux_first by done.
    by rewrite split_on_aux_absent by done. }
  split; [done |].
  unfold login, mbind, M_bind, print, getitem_list, ask. rewrite Hsplit. simpl.
  by rewrite Hopen.
Qed.

(** [login_redirect] for the sample event URL, when the sign-in page
    for that event times out. *)
Lemma login_redirect_witness :
  split_on "lu.ma/" Sample.event_url = ["https://"; "ai-for-developers-22?tk=SzndEF"] /\
  login (MoreSamples.signin_down MoreSamples.timed_out) Sample.event_url fresh
  = (Exn MoreSamples.timed_out, printed "No session found, logging in" fresh).
Proof.
  exact (login_redirect (MoreSamples.signin_down MoreSamples.timed_out)
           "https://" "ai-for-developers-22?tk=SzndEF" fresh MoreSamples.timed_out
           eq_refl eq_refl eq_refl).
Defined.

(** The run writes the session file exactly when no session file was
    there and every step of the login succeeded: the URL has a part
    after ["lu.ma/"], the sign-in page opened, the e-mail form went
    through, a code was read and accepted, and the session could be
    saved. *)
Theorem session_file_written (fuel : nat) (w : World) (url : string) (s : Sys) :
  session_file s = false ->
  (session_file (scrape_luma_event fuel w url s).2 = true <->
   session_exists w = false /\ launch w = Val tt /\
   exists next code,
     split_on "lu.ma/" url !! 1%nat = Some next /\
     open_login w ("https://lu.ma/signin?next=" ++ next)%string = Val tt /\
     submit_email w = Val tt /\
     read_code w = Val code /\
     enter_code w code = Val tt /\
     save_session w = Val tt).
Proof.
  intros Hs. rewrite session_file_after_setup.
  assert (forall P : Prop, (P -> False) -> (session_file s = true <-> P)) as Hno.
  { intros P HP. split; [congruence | by intros ?%HP]. }
  unfold setup. unfold mbind at 1, M_bind at 1, ask at 1.
  destruct (launch w) as [[]|e|] eqn:Hlaunch; simpl;
    [| apply Hno; intros (? & ? & _); congruence ..].
  rewrite session_after_bind by (intros a; ses_auto).
  destruct (session_exists w) eqn:Hsession; simpl;
    [apply Hno; intros (? & _); congruence |].
  unfold login, getitem_list, mbind, M_bind, ask, print, prompt, store_session, raise, mret, M_ret.
  destruct (split_on "lu.ma/" url !! 1%nat) as [next|] eqn:Hnext; simpl;
    [| apply Hno; intros (_ & _ & ? & ? & ? & _); congruence].
  destruct (open_login w _) as [[]|e|] eqn:Hopen; simpl;
    [| apply Hno; intros (_ & _ & ? & ? & ? & ? & _); congruence ..].
  destruct (submit_email w) as [[]|e|] eqn:Hsubmit; simpl;
    [| apply Hno; intros (_ & _ & ? & ? & ? & ? & ? & _); congruence ..].
  destruct (read_code w) as [code|e|] eqn:Hcode; simpl;
    [| apply Hno; intros (_ & _ & ? & ? & ? & ? & ? & ? & _); congruence ..].
  destruct (enter_code w code) as [[]|e|] eqn:Henter; simpl;
    [| apply Hno; intros (_ & _ & ? & ? & ? & ? & ? & ? & ? & _); congruence ..].
  destruct (save_session w) as [[]|e|] eqn:Hsave; simpl;
    [| apply Hno; intros (_ & _ & ? & ? & ? & ? & ? & ? & ? & ?); congruence ..].
  split; [| done]. intros _. split_and!; try done. by exists next, code.
Qed.

(** [session_file_written] on a first visit: the login goes through
    and the session file is written. *)
Lemma session_file_written_witness :
  session_file (scrape_luma_event 10 MoreSamples.first_visit Sample.event_url fresh).2 = true <->
  session_exists MoreSamples.first_visit = false /\ launch MoreSamples.first_visit = Val tt /\
  exists next code,
    split_on "lu.ma/" Sample.event_url !! 1%nat = Some next /\
    open_login MoreSamples.first_visit ("https://lu.ma/signin?next=" ++ next)%string = Val tt /\
    submit_email MoreSamples.first_visit = Val tt /\
    read_code MoreSamples.first_visit = Val code /\
    enter_code MoreSamples.first_visit code = Val tt /\
    save_session MoreSamples.first_visit = Val tt.
Proof.
  exact (session_file_written 10 MoreSamples.first_visit Sample.event_url fresh eq_refl).
Defined.

(** For a candidate whose profile page shows a LinkedIn link with a
    non-empty [href], the resolver stores that [href] under
    ["linkedin"], leaves the other keys alone, and the filter of line
    233 keeps the participant, whose CSV row carries the link. *)
Theorem resolve_attaches_link (w : World) (i : nat) (first_name last_name profile_url : string)
    (s : Sys) (n : Z) (h : string) :
  let participant := candidate first_name last_name profile_url in
  let page := profile_at w i profile_url in
  visit page = Val tt ->
  link_count page = Val n -> n <> 0%Z ->
  link_href page = Val (Some h) -> h <> "" ->
  resolve w i participant s =
  (Val (<["linkedin" := h]> participant),
   printed ("LinkedIn: " ++ h)
     (printed ("Processing: " ++ first_name ++ " " ++ last_name) s)) /\
  (forall k, k <> "linkedin" -> (<["linkedin" := h]> participant) !! k = participant !! k) /\
  keep_resolved [<["linkedin" := h]> participant] = [<["linkedin" := h]> participant] /\
  (forall meta,
     row_of meta (<["linkedin" := h]> participant) =
     [first_name; last_name; h; event_title meta; event_date meta; event_time meta;
      event_place meta; event_host meta; "Luma"]).
Proof.
  intros participant page Hvisit Hn Hn0 Hh Hne. split_and!.
  - unfold resolve, getitem, mbind, M_bind, ask, print, mret, M_ret.
    change (participant !! "first_name") with (Some first_name).
    change (participant !! "last_name") with (Some last_name).
    change (participant !! "profile_url") with (Some profile_url).
    cbv beta iota zeta. fold page. rewrite Hvisit, Hn. cbv beta iota zeta.
    apply Z.eqb_neq in Hn0. rewrite Hn0, Hh.
    destruct h as [|c h]; [done |]. reflexivity.
  - intros k Hk. by rewrite lookup_insert_ne.
  - unfold keep_resolved, has_linkedin. simpl. by rewrite lookup_insert_eq.
  - intros meta. unfold row_of. rewrite lookup_insert_eq.
    by rewrite !lookup_insert_ne by done.
Qed.

(** [resolve_attaches_link] on the sample page: the first candidate. *)
Lemma resolve_attaches_link_witness :
  resolve Sample.demo 0 (candidate "Jane" "Doe" "https://lu.ma/user/usr-1") fresh =
  (Val (<["linkedin" := "https://linkedin.com/in/jane"]>
          (candidate "Jane" "Doe" "https://lu.ma/user/usr-1")),
   printed "LinkedIn: https://linkedin.com/in/jane" (printed "Processing: Jane Doe" fresh)).
Proof.
  refine (proj1 (resolve_attaches_link Sample.demo 0 "Jane" "Doe" "https://lu.ma/user/usr-1"
                   fresh 1%Z "https://linkedin.com/in/jane" eq_refl eq_refl _ eq_refl _));
    discriminate.
Defined.

(** The export step, given participants that have their name and
    ["linkedin"] keys: when the file opens, it is overwritten with the
    header followed by one row per participant, in order, whatever it
    held before, and the step returns; when the file cannot be opened,
    the step raises that error and leaves the file as it was. *)
Theorem export_overwrites (w : World) (downloads_path : string) (meta : EventMetadata)
    (participants : list (gmap string string)) (s : Sys) :
  Forall (fun p => has_name_keys p /\ is_Some (p !! "linkedin")) participants ->
  (open_csv w = Val tt ->
   (export w downloads_path meta participants s).1 = Val tt /\
   csv_file (export w downloads_path meta participants s).2
   = Some (fieldnames :: map (row_of meta) participants) /\
   session_file (export w downloads_path meta participants s).2 = session_file s) /\
  (forall e, open_csv w = Exn e ->
   export w downloads_path meta participants s
   = (Exn e, printed (newline ++ "Saving to CSV in " ++ downloads_path) s)).
Proof.
  intros Hkeys. split.
  - intros Hopen. by rewrite (export_result w downloads_path meta participants s Hopen Hkeys).
  - intros e Hopen. unfold export, mbind, M_bind, print, ask. by rewrite Hopen.
Qed.

(** [export_overwrites] for one participant, over a file that held a
    stale row, and for a file that cannot be opened. *)
Lemma export_overwrites_witness :
  csv_file (export Sample.demo "/home/wes/Downloads"
              (mk_meta "T" "D" "6 PM" "P" "H")
              [<["linkedin" := "https://linkedin.com/in/jane"]>
                 (candidate "Jane" "Doe" "https://lu.ma/user/usr-1")]
              (mk_sys "" false (Some [["stale"]]))).2
  = Some [fieldnames;
          ["Jane"; "Doe"; "https://linkedin.com/in/jane"; "T"; "D"; "6 PM"; "P"; "H"; "Luma"]] /\
  csv_file (export (MoreSamples.read_only (mk_exn OSError "Permission denied"))
              "/home/wes/Downloads" (mk_meta "T" "D" "6 PM" "P" "H") []
              (mk_sys "" false (Some [["stale"]]))).2
  = Some [["stale"]].
Proof.
  split.
  - refine (proj1 (proj2 (proj1 (export_overwrites Sample.demo "/home/wes/Downloads"
                                   (mk_meta "T" "D" "6 PM" "P" "H") _ _ _) eq_refl))).
    repeat constructor; by eexists.
  - by rewrite (proj2 (export_overwrites (MoreSamples.read_only (mk_exn OSError "Permission denied"))
                         "/home/wes/Downloads" (mk_meta "T" "D" "6 PM" "P" "H") []
                         (mk_sys "" false (Some [["stale"]])) (List.Forall_nil _))
                  (mk_exn OSError "Permission denied") eq_refl).
Defined.




Lemma resolve_changes w i participant s out s' :
  resolve w i participant s = (Val out, s') ->
  csv_file s' = csv_file s /\ session_file s' = session_file s /\
  (out = participant \/ exists h, h <> "" /\ out = <["linkedin" := h]> participant).
Proof.
  unfold resolve, getitem, mbind, M_bind, ask, print, mret, M_ret, raise.
  destruct (participant !! "first_name") as [first_name|]; [| done].
  destruct (participant !! "last_name") as [last_name|]; [| done].
  destruct (participant !! "profile_url") as [profile_url|]; [| done].
  cbv beta iota zeta.
  destruct (visit (profile_at w i profile_url)) as [[]| |]; try done.
  destruct (link_count (profile_at w i profile_url)) as [n| |]; try done.
  cbv beta iota zeta.
  destruct (n =? 0)%Z.
  { intros [= <- <-]. split_and!; try done. by left. }
  destruct (link_href (profile_at w i profile_url)) as [[[|c h]|]| |]; try done;
    cbv beta iota zeta; simpl; intros [= <- <-]; split_and!; try done;
    first [ by left | right; by exists (String c h) ].
Qed.

(** The resolver neither drops nor reorders participants: it returns as
    many as it was given, and each is the one at the same position,
    unchanged or with a non-empty ["linkedin"] entry added; and neither
    file is touched. *)
Theorem resolver_keeps_participants (w : World) (participants : list (gmap string string)) :
  forall (i : nat) (s : Sys) (out : list (gmap string string)) (s' : Sys),
  resolve_all w i participants s = (Val out, s') ->
  Forall2 (fun p p' => p' = p \/ exists h, h <> "" /\ p' = <["linkedin" := h]> p)
          participants out /\
  length out = length participants /\
  csv_file s' = csv_file s /\ session_file s' = session_file s.
Proof.
  induction participants as [|p rest IH]; intros i s out s' Hrun; simpl in Hrun.
  - injection Hrun as <- <-. by split_and!.
  - apply bind_val_inv in Hrun as (p' & s1 & Hp & Hrun).
    apply bind_val_inv in Hrun as (rest' & s2 & Hrest & Hret).
    injection Hret as <- <-.
    apply resolve_changes in Hp as (Hcsv & Hses & Hp).
    apply IH in Hrest as (Hall & Hlen & Hcsv' & Hses').
    split_and!; [by constructor | simpl; lia | congruence | congruence].
Qed.

(** [resolver_keeps_participants] on the candidates of the sample page. *)
Lemma resolver_keeps_participants_witness :
  Forall2 (fun p p' => p' = p \/ exists h, h <> "" /\ p' = <["linkedin" := h]> p)
    [candidate "Jane" "Doe" "https://lu.ma/user/usr-1";
     candidate "Madonna" "" "https://lu.ma/user/usr-3"]
    [<["linkedin" := "https://linkedin.com/in/jane"]>
       (candidate "Jane" "Doe" "https://lu.ma/user/usr-1");
     candidate "Madonna" "" "https://lu.ma/user/usr-3"].
Proof.
  refine (proj1 (resolver_keeps_participants Sample.demo
                   [candidate "Jane" "Doe" "https://lu.ma/user/usr-1";
                    candidate "Madonna" "" "https://lu.ma/user/usr-3"] 0 fresh _
                   (resolve_all Sample.demo 0
                      [candidate "Jane" "Doe" "https://lu.ma/user/usr-1";
                       candidate "Madonna" "" "https://lu.ma/user/usr-3"] fresh).2 _)).
  vm_compute. reflexivity.
Defined.

End RunExtras.
